(** * tinker: the turn orchestration engine, embedded in Rocq

    A shallow embedding of the parts of [agent/agent.go],
    [inference/inference.go], [inference/anthropic.go],
    [inference/gemini.go] and [server/data/conversation.go] that the
    testable properties of the design document talk about, with the
    answer handling of the Gemini client and the path parsers of
    [server/server.go].

    Conventions.
    - A Go [string] is a sequence of bytes: Rocq's [string] (a list of
      8-bit [ascii]); [len(s)] is [String.length s].
    - A Go [int] is a [Z]; every integer below is a length or a small
      constant, far from the 64-bit bounds, so no wrap-around occurs.
    - A Go [error] is represented by its [Error()] text.
    - A run-time panic (nil dereference, index or slice out of range) is
      an explicit outcome, never silently skipped.
    - [*message.Message] values are modelled by value; every message the
      orchestrator appends is allocated on the spot ([&message.Message{..}]
      in [Agent.Run], [toGenericMessage] and [runInferenceSnapshot] in the
      provider clients), so no two list entries alias. *)

From Stdlib Require Import ZArith Ascii.
From Stdlib Require String.
From stdpp Require Import base tactics option list strings gmap.

Local Open Scope Z_scope.

(** ** Go run-time outcomes *)

(** The outcome of evaluating a Go expression that may panic. *)
Inductive go (A : Type) : Type :=
| Done (a : A)
| Panic.
Arguments Done {A} a.
Arguments Panic {A}.

Definition go_bind {A B : Type} (x : go A) (k : A → go B) : go B :=
  match x with
  | Done a => k a
  | Panic => Panic
  end.

Declare Scope go_scope.
Delimit Scope go_scope with go.
Notation "'let!' x ':=' e 'in' k" := (go_bind e (fun x => k))
  (at level 10, x name, e at level 100, k at level 200,
   format "'[' 'let!'  x  ':='  e  'in' ']' '/' k") : go_scope.
Local Open Scope go_scope.

(** ** Byte strings *)

Module GoString.

(** [len(s)] *)
Definition len (s : string) : Z := Z.of_nat (String.length s).

(** The first [n] bytes, and what follows them. *)
Fixpoint prefix_bytes (n : nat) (s : string) : string :=
  match n, s with
  | S n', String c s' => String c (prefix_bytes n' s')
  | _, _ => EmptyString
  end.

Fixpoint suffix_from (n : nat) (s : string) : string :=
  match n, s with
  | S n', String _ s' => suffix_from n' s'
  | _, _ => s
  end.

(** [s[:hi]]: panics unless [0 <= hi <= len(s)]. *)
Definition slice_to (s : string) (hi : Z) : go string :=
  if bool_decide (0 ≤ hi ∧ hi ≤ len s) then Done (prefix_bytes (Z.to_nat hi) s) else Panic.

(** [s[lo:]]: panics unless [0 <= lo <= len(s)]. *)
Definition slice_from (s : string) (lo : Z) : go string :=
  if bool_decide (0 ≤ lo ∧ lo ≤ len s) then Done (suffix_from (Z.to_nat lo) s) else Panic.

(** [strings.ToLower] on ASCII text (error texts of this program are ASCII). *)
Definition lower_byte (c : ascii) : ascii :=
  let n := nat_of_ascii c in
  if bool_decide (65 ≤ n ≤ 90)%nat then ascii_of_nat (n + 32) else c.

Fixpoint ToLower (s : string) : string :=
  match s with
  | EmptyString => EmptyString
  | String c s' => String (lower_byte c) (ToLower s')
  end.

(** [strings.Contains(s, sub)] *)
Fixpoint Contains (s sub : string) : bool :=
  String.prefix sub s ||
  match s with
  | EmptyString => false
  | String _ s' => Contains s' sub
  end.

(** [strings.HasPrefix], [strings.TrimPrefix], [strings.HasSuffix] and
    [strings.TrimSuffix] *)
Definition HasPrefix (s pre : string) : bool := String.prefix pre s.

Definition TrimPrefix (s pre : string) : string :=
  if HasPrefix s pre then suffix_from (String.length pre) s else s.

Definition HasSuffix (s suffix : string) : bool :=
  bool_decide (String.length suffix ≤ String.length s)%nat
  && bool_decide (suffix_from (String.length s - String.length suffix) s = suffix).

Definition TrimSuffix (s suffix : string) : string :=
  if HasSuffix s suffix
  then prefix_bytes (String.length s - String.length suffix) s
  else s.

End GoString.
Import GoString.

(** ** package message *)

Definition RawMessage := string.   (* json.RawMessage, a byte slice *)

Definition UserRole : string := "user".
Definition AssistantRole : string := "assistant".
Definition ModelRole : string := "model".

(** The sealed [ContentBlock] interface with its three implementations. *)
Inductive ContentBlock : Type :=
| TextBlock (Text : string)
| ToolUseBlock (ID Name : string) (Input Thought : RawMessage)
| ToolResultBlock (ToolUseID ToolName Content : string) (IsError : bool).

(** Modelled from the spec: the constructors of package [message], whose
    file is not part of the sources at hand; each fills the fields of its
    block in the order the tests read them back. *)
Definition NewTextBlock (text : string) : ContentBlock := TextBlock text.
Definition NewToolUseBlock (id name : string) (input : RawMessage) : ContentBlock :=
  ToolUseBlock id name input EmptyString.
Definition NewToolResultBlock (toolUseID toolName content : string) (isError : bool)
  : ContentBlock := ToolResultBlock toolUseID toolName content isError.

Record Message : Type := mkMessage {
  Role : string;
  Content : list ContentBlock;
  CreatedAt : Z;
  Sequence : Z;
}.

Definition with_Content (m : Message) (c : list ContentBlock) : Message :=
  mkMessage (Role m) c (CreatedAt m) (Sequence m).

Global Instance ContentBlock_eq_dec : EqDecision ContentBlock.
Proof. solve_decision. Defined.
Global Instance Message_eq_dec : EqDecision Message.
Proof. solve_decision. Defined.

(** ** package inference: the shared client logic *)

Module Inference.

(** [BaseLLMClient.BaseSummarizeHistory]. [history[0]] panics on an empty
    slice and [history[len(history)-threshold:]] panics when the lower
    bound is outside [0..len]. *)
Definition BaseSummarizeHistory {A : Type} (history : list A) (threshold : Z)
  : go (list A) :=
  if bool_decide (Z.of_nat (length history) ≤ threshold) then Done history
  else
    let! first := (match history !! 0%nat with Some m => Done m | None => Panic end) in
    let lo := Z.of_nat (length history) - threshold in
    let! recentMessages :=
      (if bool_decide (0 ≤ lo ∧ lo ≤ Z.of_nat (length history))
       then Done (drop (Z.to_nat lo) history) else Panic) in
    Done ([first] ++ recentMessages).

Definition truncation_marker : string :=
  String "010"%char "... [TRUNCATED] ..." +:+ String "010"%char EmptyString.

(** The loop of [BaseTruncateMessage] over [msg.Content], from index [i]
    on. The first tool result shorter than [threshold] ends the whole
    function ([return msg]); a longer one is rewritten in place. *)
Fixpoint truncate_blocks (blocks : list ContentBlock) (threshold : Z)
  : go (list ContentBlock) :=
  match blocks with
  | [] => Done []
  | b :: rest =>
      match b with
      | ToolResultBlock toolUseID toolName content isError =>
          if bool_decide (len content < threshold) then Done (b :: rest)
          else
            let! head := slice_to content (threshold `quot` 2) in
            let! tail := slice_from content (len content - threshold `quot` 2) in
            let truncated := head +:+ truncation_marker +:+ tail in
            let! rest' := truncate_blocks rest threshold in
            Done (NewToolResultBlock toolUseID toolName truncated isError :: rest')
      | _ =>
          let! rest' := truncate_blocks rest threshold in
          Done (b :: rest')
      end
  end.

(** [BaseLLMClient.BaseTruncateMessage]. A nil [msg] is [None]: ranging
    over [msg.Content] dereferences it. The message is updated in place
    and the same pointer is returned. *)
Definition BaseTruncateMessage (msg : option Message) (threshold : Z) : go Message :=
  match msg with
  | None => Panic
  | Some m =>
      let! blocks := truncate_blocks (Content m) threshold in
      Done (with_Content m blocks)
  end.

End Inference.
Import Inference.


(** ** package tools and package data: the declarations the engine uses *)

(** A Go [error] value, by its message; the nil error is [None]. *)
Definition error := string.

(** Modelled from the spec: [data.Step] and [data.Plan], declared in a file
    that is not part of the sources at hand ("Plan: id, owning conversation
    id, ordered Steps {id, description, status in {TODO, DONE}}"). *)
Record Step : Type := mkStep {
  StepID : string;
  StepDescription : string;
  StepStatus : string;
}.

Record Plan : Type := mkPlan {
  PlanID : string;
  ConversationID : string;
  Steps : list Step;
}.

(** [&data.Plan{}] *)
Definition emptyPlan : Plan := mkPlan EmptyString EmptyString [].

(** [tools.ToolInput]: the raw JSON arguments and the plan reached through
    the embedded [*ToolObject]. *)
Record ToolInput : Type := mkToolInput {
  RawInput : RawMessage;
  InputPlan : Plan;
}.

(** What a call of a tool function leaves behind: the two Go results, the
    plan object behind [ToolInput.Plan] (tool functions update it in
    place) and the outside world the function acted on. *)
Record ToolOutcome (W : Type) : Type := mkToolOutcome {
  response : string;
  failure : option error;
  planAfter : Plan;
  worldAfter : W;
}.
Arguments mkToolOutcome {W}.
Arguments response {W}.
Arguments failure {W}.
Arguments planAfter {W}.
Arguments worldAfter {W}.

(** [tools.ToolDefinition], over the type [W] of the outside world and the
    type [Schema] of [InputSchema]. *)
Record ToolDefinition (W Schema : Type) : Type := mkToolDefinition {
  Name : string;
  Description : string;
  InputSchema : Schema;
  Function : ToolInput → W → ToolOutcome W;
  IsSubTool : bool;
}.
Arguments mkToolDefinition {W Schema}.
Arguments Name {W Schema}.
Arguments Description {W Schema}.
Arguments InputSchema {W Schema}.
Arguments Function {W Schema}.
Arguments IsSubTool {W Schema}.

Definition ToolNamePlanWrite : string := "plan_write".
Definition ToolNamePlanRead : string := "plan_read".

(** ** The provider clients: translation to native form *)

Section Providers.
Context {W Schema : Type}.

(** [anthropic.go] *)
Section Anthropic.
Context {NativeSchema : Type}.
(** [json.Marshal] of the generic schema followed by [json.Unmarshal]
    into [anthropic.ToolInputSchemaParam]; [toAnthropicTool] drops the
    errors of both. *)
Variable toInputSchemaParam : Schema → NativeSchema.

Inductive AnthropicBlock : Type :=
| AnthropicText (text : string)
| AnthropicToolUse (id name : string) (input : RawMessage)
| AnthropicToolResult (toolUseID content : string) (isError : bool).

Record AnthropicMessageParam : Type := mkAnthropicMessageParam {
  paramRole : string;
  paramContent : list AnthropicBlock;
}.

Record AnthropicToolParam : Type := mkAnthropicToolParam {
  toolParamName : string;
  toolParamDescription : string;
  toolParamInputSchema : NativeSchema;
}.

(** The mutable fields of [AnthropicClient]. *)
Record AnthropicClient : Type := mkAnthropicClient {
  anthropic_history : list AnthropicMessageParam;
  anthropic_tools : list AnthropicToolParam;
}.

Definition toBlocks (blocks : list ContentBlock) : list AnthropicBlock :=
  (λ block,
     match block with
     | ToolResultBlock toolUseID _ content isError =>
         AnthropicToolResult toolUseID content isError
     | TextBlock text => AnthropicText text
     | ToolUseBlock id name input _ => AnthropicToolUse id name input
     end) <$> blocks.

Definition Anthropic_ToNativeMessage (c : AnthropicClient) (msg : option Message)
  : AnthropicClient * option error :=
  match msg with
  | None => (c, Some "anthropic: message is nil")
  | Some m =>
      let blocks := toBlocks (Content m) in
      if bool_decide (Role m = UserRole) then
        (mkAnthropicClient
           (anthropic_history c ++ [mkAnthropicMessageParam "user" blocks])
           (anthropic_tools c), None)
      else if bool_decide (Role m = AssistantRole) then
        (mkAnthropicClient
           (anthropic_history c ++ [mkAnthropicMessageParam "assistant" blocks])
           (anthropic_tools c), None)
      else (c, Some "anthropic: invalid message role")
  end.

(** The loop of [ToNativeHistory]: stops at the first message that
    fails to translate, keeping what was translated before it. *)
Fixpoint Anthropic_translate_all (c : AnthropicClient) (history : list Message)
  : AnthropicClient * option error :=
  match history with
  | [] => (c, None)
  | msg :: rest =>
      match Anthropic_ToNativeMessage c (Some msg) with
      | (c', Some e) => (c', Some e)
      | (c', None) => Anthropic_translate_all c' rest
      end
  end.

Definition Anthropic_ToNativeHistory (c : AnthropicClient) (history : list Message)
  : AnthropicClient * option error :=
  if bool_decide (length history = 0%nat)
  then (c, Some "anthropic: empty conversation history")
  else Anthropic_translate_all (mkAnthropicClient [] (anthropic_tools c)) history.

Definition toAnthropicTool (tool : ToolDefinition W Schema)
  : AnthropicToolParam * option error :=
  (mkAnthropicToolParam (Name tool) (Description tool)
     (toInputSchemaParam (InputSchema tool)), None).

Fixpoint Anthropic_append_tools (c : AnthropicClient)
    (tools : list (ToolDefinition W Schema)) : AnthropicClient * option error :=
  match tools with
  | [] => (c, None)
  | tool :: rest =>
      match toAnthropicTool tool with
      | (_, Some e) => (c, Some e)
      | (anthropicTool, None) =>
          Anthropic_append_tools
            (mkAnthropicClient (anthropic_history c)
               (anthropic_tools c ++ [anthropicTool])) rest
      end
  end.

Definition Anthropic_ToNativeTools (c : AnthropicClient)
    (tools : list (ToolDefinition W Schema)) : AnthropicClient * option error :=
  if bool_decide (length tools = 0%nat) then (c, None)
  else Anthropic_append_tools (mkAnthropicClient (anthropic_history c) []) tools.
End Anthropic.

(** [gemini.go] *)
Section Gemini.
Context {NativeSchema Args : Type}.
(** [schema.ConvertToGeminiSchema], from a package outside the sources
    at hand. *)
Variable ConvertToGeminiSchema : Schema → NativeSchema + error.
(** [json.Unmarshal] of a tool input into [map[string]any]. *)
Variable unmarshalArgs : RawMessage → Args + error.
(** The signature bytes of a non-empty [Thought], when they decode to a
    non-empty byte slice. *)
Variable thoughtSignature : RawMessage → option string.

Inductive GeminiPart : Type :=
| PartFromText (text : string)
| PartFromFunctionCall (name : string) (args : Args) (signature : option string)
| PartFromFunctionResponse (name : string) (result : string).

Record GeminiContent : Type := mkGeminiContent {
  contentRole : string;
  contentParts : list GeminiPart;
}.

Record FunctionDeclaration : Type := mkFunctionDeclaration {
  declName : string;
  declDescription : string;
  declParameters : NativeSchema;
}.

(** [genai.Tool] *)
Record GeminiTool : Type := mkGeminiTool {
  FunctionDeclarations : list FunctionDeclaration;
}.

(** The mutable fields of [GeminiClient]. *)
Record GeminiClient : Type := mkGeminiClient {
  gemini_contents : list GeminiContent;
  gemini_tools : list GeminiTool;
}.

Fixpoint toParts (blocks : list ContentBlock) : list GeminiPart :=
  match blocks with
  | [] => []
  | block :: rest =>
      match block with
      | TextBlock text =>
          if bool_decide (text ≠ EmptyString) then PartFromText text :: toParts rest
          else toParts rest
      | ToolUseBlock _ name input thought =>
          match unmarshalArgs input with
          | inr _ => toParts rest
          | inl args =>
              let sig :=
                if bool_decide (0 < len thought) then thoughtSignature thought
                else None in
              PartFromFunctionCall name args sig :: toParts rest
          end
      | ToolResultBlock _ toolName content _ =>
          PartFromFunctionResponse toolName content :: toParts rest
      end
  end.

Definition Gemini_ToNativeMessage (c : GeminiClient) (msg : option Message)
  : GeminiClient * option error :=
  match msg with
  | None => (c, Some "gemini: message is nil")
  | Some m =>
      let parts := toParts (Content m) in
      if bool_decide (length parts = 0%nat)
      then (c, Some "gemini: message has no content parts")
      else (mkGeminiClient (gemini_contents c ++ [mkGeminiContent (Role m) parts])
              (gemini_tools c), None)
  end.

Fixpoint Gemini_translate_all (c : GeminiClient) (history : list Message)
  : GeminiClient * option error :=
  match history with
  | [] => (c, None)
  | msg :: rest =>
      match Gemini_ToNativeMessage c (Some msg) with
      | (c', Some e) => (c', Some e)
      | (c', None) => Gemini_translate_all c' rest
      end
  end.

Definition Gemini_ToNativeHistory (c : GeminiClient) (history : list Message)
  : GeminiClient * option error :=
  if bool_decide (length history = 0%nat)
  then (c, Some "gemini: empty conversation history")
  else Gemini_translate_all (mkGeminiClient [] (gemini_tools c)) history.

Definition toFunctionDeclaration (tool : ToolDefinition W Schema)
  : FunctionDeclaration + error :=
  match ConvertToGeminiSchema (InputSchema tool) with
  | inr err => inr ("failed to convert schema to Gemini format: " +:+ err)
  | inl params => inl (mkFunctionDeclaration (Name tool) (Description tool) params)
  end.

(** The loop of [ToNativeTools] filling [builtinTool.FunctionDeclarations]. *)
Fixpoint Gemini_declarations (acc : list FunctionDeclaration)
    (tools : list (ToolDefinition W Schema))
  : list FunctionDeclaration + error :=
  match tools with
  | [] => inl acc
  | tool :: rest =>
      match toFunctionDeclaration tool with
      | inr err => inr err
      | inl geminiToolFuncDec => Gemini_declarations (acc ++ [geminiToolFuncDec]) rest
      end
  end.

Definition Gemini_ToNativeTools (c : GeminiClient)
    (tools : list (ToolDefinition W Schema)) : GeminiClient * option error :=
  if bool_decide (length tools = 0%nat)
  then (c, Some "gemini: no tools provided")
  else
    match Gemini_declarations [] tools with
    | inr e => (c, Some e)
    | inl decls => (mkGeminiClient (gemini_contents c) [mkGeminiTool decls], None)
    end.
End Gemini.
End Providers.

(** ** package data: conversations *)

Record Conversation : Type := mkConversation {
  ConvID : string;
  Messages : list Message;
  ConvTokenCount : Z;
  ConvCreatedAt : Z;
}.

Definition with_Messages (c : Conversation) (msgs : list Message) : Conversation :=
  mkConversation (ConvID c) msgs (ConvTokenCount c) (ConvCreatedAt c).

(** [Conversation.Append]: stamps the message with the time and with
    [len(c.Messages)] as its sequence number, then appends it. Writing the
    two fields through a nil [msg] panics. *)
Definition Append (c : Conversation) (msg : option Message) (now : Z) : go Conversation :=
  match msg with
  | None => Panic
  | Some m =>
      let sequence := Z.of_nat (length (Messages c)) in
      Done (with_Messages c (Messages c ++ [mkMessage (Role m) (Content m) now sequence]))
  end.

(** ** package agent *)

Section Agent.
(** [W]: the world outside the process (store, tool servers, file
    system, the subagent's provider); [S]: the state behind the
    [inference.LLMClient] interface value; [Server]: [*mcp.Server];
    [Args]: [map[string]any]. *)
Context {W S Schema Server Args : Type}.

Local Abbreviation ToolDef := (ToolDefinition W Schema).

(** The [inference.LLMClient] interface. A method that returns
    a message pointer and an error gives both results; [RunInference] also
    gives the fragments it passed to [onDelta]. *)
Record LLMClient : Type := mkLLMClient {
  RunInference : bool → S → S * list string * (option Message * option error);
  CountTokens : S → S * (Z * option error);
  SummarizeHistory : list Message → Z → go (list Message);
  TruncateMessage : option Message → Z → go Message;
  ToNativeHistory : list Message → S → S * option error;
  ToNativeMessage : option Message → S → S * option error;
  ToNativeTools : list ToolDef → S → S * option error;
}.

(** The collaborators of the orchestrator that live outside the sources
    at hand: the store client ([server.APIClient]), the tool servers, the
    subagent and the library calls whose results the engine only passes
    on. *)
Record Env : Type := mkEnv {
  GetPlan : string → W → W * (option Plan * option error);
  CreatePlan : string → W → W * (option Plan * option error);
  SavePlan : Plan → W → W * option error;
  SaveConversation : Conversation → W → W * option error;
  (** [Server.Call]; a non-nil result is given by its [%v] rendering. *)
  ServerCall : Server → string → Args → W → W * (option string * option error);
  (** [json.Unmarshal(input, &args)] followed by the nil check. *)
  decodeArgs : RawMessage → Args;
  (** [json.Unmarshal(rawInput, &input)] for [tools.FinderInput], giving
      [input.Query]. *)
  decodeQuery : RawMessage → string + error;
  (** [Subagent.Run] and the [TruncateMessage] of the subagent's client. *)
  SubRun : string → string → W → W * (option Message * option error);
  SubTruncateMessage : option Message → Z → go Message;
  timeNow : W → Z;
  (** [FormatToolResultMessage], whose text comes from package [ui]. *)
  FormatToolResultMessage : string → RawMessage → bool → string;
}.

(** [ui.State] *)
Record UIState : Type := mkUIState {
  StatePlan : option Plan;
  StateTokenCount : Z;
}.

(** What the orchestrator does to its surroundings, in order. *)
Inductive Event : Type :=
| EvGetPlan (id : string)
| EvCreatePlan (conversationID : string)
| EvSavePlan (p : Plan)
| EvSaveConversation (c : Conversation)
| EvPublish (s : UIState)
| EvDelta (text : string)
| EvRunInference
| EvToolFunction (name : string)
| EvServerCall (name : string)
| EvSubagent (query : string).

Record Agent : Type := mkAgent {
  LLM : S;
  ToolBox : list ToolDef;
  Conv : Conversation;
  AgentPlan : option Plan;
  TokenCount : Z;
  ToolMap : gmap string Server;
  streaming : bool;
  world : W;
  events : list Event;
}.

Definition set_LLM (a : Agent) (x : S) : Agent :=
  mkAgent x (ToolBox a) (Conv a) (AgentPlan a) (TokenCount a) (ToolMap a)
    (streaming a) (world a) (events a).
Definition set_Conv (a : Agent) (x : Conversation) : Agent :=
  mkAgent (LLM a) (ToolBox a) x (AgentPlan a) (TokenCount a) (ToolMap a)
    (streaming a) (world a) (events a).
Definition set_Plan (a : Agent) (x : option Plan) : Agent :=
  mkAgent (LLM a) (ToolBox a) (Conv a) x (TokenCount a) (ToolMap a)
    (streaming a) (world a) (events a).
Definition set_TokenCount (a : Agent) (x : Z) : Agent :=
  mkAgent (LLM a) (ToolBox a) (Conv a) (AgentPlan a) x (ToolMap a)
    (streaming a) (world a) (events a).
Definition set_world (a : Agent) (x : W) : Agent :=
  mkAgent (LLM a) (ToolBox a) (Conv a) (AgentPlan a) (TokenCount a) (ToolMap a)
    (streaming a) x (events a).
Definition emit (a : Agent) (e : list Event) : Agent :=
  mkAgent (LLM a) (ToolBox a) (Conv a) (AgentPlan a) (TokenCount a) (ToolMap a)
    (streaming a) (world a) (events a ++ e).

(** *** Methods that return to their caller: state and panics *)

Definition M (A : Type) : Type := Agent → go (A * Agent).

Definition ret {A : Type} (x : A) : M A := λ a, Done (x, a).
Definition bind {A B : Type} (m : M A) (k : A → M B) : M B :=
  λ a, match m a with
       | Done (x, a') => k x a'
       | Panic => Panic
       end.
Definition lift {A : Type} (x : go A) : M A :=
  λ a, match x with Done v => Done (v, a) | Panic => Panic end.
Definition get : M Agent := λ a, Done (a, a).
Definition log (e : Event) : M unit := λ a, Done (tt, emit a [e]).
(** A call into the outside world. *)
Definition call {A : Type} (f : W → W * A) : M A :=
  λ a, let '(w, x) := f (world a) in Done (x, set_world a w).
(** A call of a method of [a.LLM]. *)
Definition llm {A : Type} (f : S → S * A) : M A :=
  λ a, let '(s, x) := f (LLM a) in Done (x, set_LLM a s).

Notation "'let*' x ':=' m 'in' k" := (bind m (λ x, k))
  (at level 10, x name, m at level 100, k at level 200, only parsing).

Variable client : LLMClient.
Variable env : Env.

(** [Agent.runSubagent] *)
Definition runSubagent (id name toolDescription : string) (rawInput : RawMessage)
  : M (option Message * option error) :=
  match decodeQuery env rawInput with
  | inr err => ret (None, Some err)
  | inl query =>
      let* _ := log (EvSubagent query) in
      let* r := call (SubRun env toolDescription query) in
      match r with
      | (_, Some err) => ret (None, Some err)
      | (result, None) => ret (result, None)
      end
  end.

(** [Agent.executePlanTool] *)
Definition executePlanTool (toolDef : ToolDef) (toolInput : ToolInput)
  : M (string * option error) :=
  let* a := get in
  let convID := ConvID (Conv a) in
  let* _ := log (EvGetPlan convID) in
  let* r := call (GetPlan env convID) in
  (** [resolved] is [p] after the first [if], or the early return. *)
  let* resolved :=
    match r with
    | (p, None) => ret (inl p)
    | (_, Some err) =>
        if Contains (ToLower err) "not found" then
          let* _ := log (EvCreatePlan convID) in
          let* r' := call (CreatePlan env convID) in
          match r' with
          | (_, Some err') =>
              ret (inr ("plan_write: failed to create new plan for conversation with ID '"
                        +:+ convID +:+ "' for adding steps: " +:+ err'))
          | (p, None) => ret (inl p)
          end
        else
          ret (inr ("plan_write: failed to get plan with conversation ID '"
                    +:+ convID +:+ "': " +:+ err))
    end in
  match resolved with
  | inr e => ret (EmptyString, Some e)
  | inl None => ret (EmptyString, Some "plan_write: plan object is nil after GetPlan/CreatePlan")
  | inl (Some p) =>
      let* _ := log (EvToolFunction (Name toolDef)) in
      let* out := call (λ w, let o := Function toolDef (mkToolInput (RawInput toolInput) p) w in
                       (worldAfter o, o)) in
      (** [response, err := toolDef.Function(toolInput)]; the next
          statement assigns [err] afresh. *)
      let p := planAfter out in
      let* _ := log (EvSavePlan p) in
      let* err := call (SavePlan env p) in
      match err with
      | Some e =>
          ret (EmptyString, Some ("plan_write: failed to save plan '" +:+ convID
                         +:+ "' after setting status: " +:+ e))
      | None =>
          let* _ := (λ a, Done (tt, set_Plan a (Some p))) in
          let* _ := log (EvPublish (mkUIState (Some p) 0)) in
          ret (response out, None)
      end
  end.

(** The [strings.Builder] loop of [executeLocalTool]. *)
Fixpoint foldContent (blocks : list ContentBlock) : string :=
  match blocks with
  | [] => EmptyString
  | TextBlock text :: rest => text +:+ foldContent rest
  | ToolResultBlock _ _ content _ :: rest => content +:+ foldContent rest
  | _ :: rest => foldContent rest
  end.

(** The lookup loop of [executeLocalTool]: the first tool of that name. *)
Fixpoint findTool (tools : list ToolDef) (name : string) : option ToolDef :=
  match tools with
  | [] => None
  | tool :: rest => if bool_decide (Name tool = name) then Some tool else findTool rest name
  end.

(** [Agent.executeLocalTool] *)
Definition executeLocalTool (id name : string) (input : RawMessage) : M ContentBlock :=
  let* a := get in
  match findTool (ToolBox a) name with
  | None => ret (NewToolResultBlock id name "tool not found" true)
  | Some toolDef =>
      if IsSubTool toolDef then
        let* r := runSubagent id name (Description toolDef) input in
        let '(toolResultMsg, err) := r in
        let* truncatedResult := lift (SubTruncateMessage env toolResultMsg 25000) in
        match err with
        | Some e => ret (NewToolResultBlock id name e true)
        | None =>
            let toolOutput := foldContent (Content truncatedResult) in
            ret (NewToolResultBlock id name toolOutput false)
        end
      else
        let toolInput := mkToolInput input emptyPlan in
        let* r := (if bool_decide (Name toolDef = ToolNamePlanWrite
                             ∨ Name toolDef = ToolNamePlanRead)
             then executePlanTool toolDef toolInput
             else
               let* _ := log (EvToolFunction (Name toolDef)) in
               let* out := call (λ w, let o := Function toolDef toolInput w in
                                (worldAfter o, o)) in
               ret (response out, failure out)) in
        match r with
        | (_, Some e) => ret (NewToolResultBlock id name e true)
        | (toolOutput, None) => ret (NewToolResultBlock id name toolOutput false)
        end
  end.

(** [Agent.executeMCPTool] *)
Definition executeMCPTool (id name : string) (input : RawMessage) (server : Server)
  : M ContentBlock :=
  let args := decodeArgs env input in
  let* _ := log (EvServerCall name) in
  let* r := call (ServerCall env server name args) in
  match r with
  | (_, Some err) =>
      ret (NewToolResultBlock id name
             ("MCP tool " +:+ name +:+ " execution error: " +:+ err) true)
  | (None, None) =>
      ret (NewToolResultBlock id name
             "Tool executed successfully but returned no content" false)
  | (Some content, None) =>
      if bool_decide (content = EmptyString) then
        ret (NewToolResultBlock id name
               "Tool executed successfully but returned empty content" false)
      else ret (NewToolResultBlock id name content false)
  end.

(** [Agent.executeTool] *)
Definition executeTool (id name : string) (input : RawMessage) : M ContentBlock :=
  let* a := get in
  let* result := match ToolMap a !! name with
           | Some execDetails => executeMCPTool id name input execDetails
           | None => executeLocalTool id name input
           end in
  let isError := match result with
                 | ToolResultBlock _ _ _ true => true
                 | _ => false
                 end in
  let* _ := log (EvDelta (FormatToolResultMessage env name input isError)) in
  ret result.

(** The dispatch loop of [Run] over [agentMsg.Content]. *)
Fixpoint dispatch (blocks : list ContentBlock) : M (list ContentBlock) :=
  match blocks with
  | [] => ret []
  | ToolUseBlock id name input _ :: rest =>
      let* result := executeTool id name input in
      let* toolResults := dispatch rest in
      ret (result :: toolResults)
  | _ :: rest => dispatch rest
  end.

(** [Agent.saveConversation] *)
Definition saveConversation : M (option error) :=
  let* a := get in
  if bool_decide (0 < Z.of_nat (length (Messages (Conv a)))) then
    let* _ := log (EvSaveConversation (Conv a)) in
    call (SaveConversation env (Conv a))
  else ret None.

(** [Agent.streamResponse]: waits for the one goroutine it starts. *)
Definition streamResponse : M (option Message * option error) :=
  let* a := get in
  let* _ := log EvRunInference in
  let* r := llm (λ s, let '(s', deltas, res) := RunInference client (streaming a) s in
                (s', (deltas, res))) in
  let '(deltas, (msg, streamErr)) := r in
  let* _ := (λ a, Done (tt, emit a (EvDelta <$> deltas))) in
  match streamErr with
  | Some e => ret (None, Some e)
  | None => ret (msg, None)
  end.

(** [a.Conv.Append(msg)] *)
Definition appendToConv (msg : option Message) : M unit :=
  λ a, match Append (Conv a) msg (timeNow env (world a)) with
       | Done c => Done (tt, set_Conv a c)
       | Panic => Panic
       end.

(** *** [Agent.Run] *)

(** How one pass through the body of the [for] loop ends. *)
Inductive pass : Type :=
| Continue (readUserInput : bool)
| Break
| Return (err : error).

(** The body of the [for] loop of [Run]. *)
Definition Run_pass (userInput : string) (readUserInput : bool) : M pass :=
  let* first :=
    (if readUserInput then
       let userMsg := mkMessage UserRole [NewTextBlock userInput] 0 0 in
       let* err := llm (ToNativeMessage client (Some userMsg)) in
       match err with
       | Some e => ret (Some e)
       | None => let* _ := appendToConv (Some userMsg) in ret None
       end
     else ret None) in
  match first with
  | Some e => ret (Return e)
  | None =>
      let* r := streamResponse in
      match r with
      | (_, Some e) => ret (Return e)
      | (agentMsg, None) =>
          let* err := llm (ToNativeMessage client agentMsg) in
          match err with
          | Some e => ret (Return e)
          | None =>
              let* _ := appendToConv agentMsg in
              let* toolResults :=
                dispatch (match agentMsg with Some m => Content m | None => [] end) in
              if bool_decide (length toolResults = 0%nat) then
                let* _ := saveConversation in
                let* r := llm (CountTokens client) in
                match r with
                | (_, Some e) => ret (Return e)
                | (count, None) =>
                    let* _ := (λ a, Done (tt, set_TokenCount a count)) in
                    let* _ := log (EvPublish (mkUIState None count)) in
                    ret Break
                end
              else
                let toolResultMsg := mkMessage UserRole toolResults 0 0 in
                let* err := llm (ToNativeMessage client (Some toolResultMsg)) in
                match err with
                | Some e => ret (Return e)
                | None => let* _ := appendToConv (Some toolResultMsg) in ret (Continue false)
                end
          end
      end
  end.

(** What a call of [Run] comes to: it returns (an error or nil), it
    panics, or the model keeps asking for tools beyond [fuel] passes. *)
Inductive RunResult : Type :=
| Returned (err : option error) (a : Agent)
| Panicked
| StillRunning (a : Agent).

Fixpoint Run_loop (fuel : nat) (userInput : string) (readUserInput : bool)
    (a : Agent) : RunResult :=
  match fuel with
  | O => StillRunning a
  | Datatypes.S fuel' =>
      match Run_pass userInput readUserInput a with
      | Panic => Panicked
      | Done (Return e, a') => Returned (Some e) a'
      | Done (Break, a') => Returned None a'
      | Done (Continue readUserInput', a') => Run_loop fuel' userInput readUserInput' a'
      end
  end.

(** The statements of [Run] before the loop: compaction, then the two
    translations whose results are dropped. *)
Definition Run_setup : M unit :=
  let* a := get in
  let* msgs := lift (SummarizeHistory client (Messages (Conv a)) 20) in
  let* _ := (λ a, Done (tt, set_Conv a (with_Messages (Conv a) msgs))) in
  let* _ := (if bool_decide (length msgs ≠ 0%nat)
             then let* _ := llm (ToNativeHistory client msgs) in ret tt
             else ret tt) in
  let* a := get in
  let* _ := llm (ToNativeTools client (ToolBox a)) in
  ret tt.

Definition Run (fuel : nat) (userInput : string) (a : Agent) : RunResult :=
  match Run_setup a with
  | Panic => Panicked
  | Done (_, a') => Run_loop fuel userInput true a'
  end.

End Agent.

(** ** The two providers as implementations of [inference.LLMClient] *)

Section ProviderClients.
Context {W Schema Net : Type}.

(** The state behind a provider client: its mutable fields and the
    provider's service [Net] at the other end of the SDK. *)

Section AnthropicLLM.
Context {NativeSchema : Type}.
Variable toInputSchemaParam : Schema → NativeSchema.
(** [runInferenceStream] / [runInferenceSnapshot]: the SDK call and
    [toGenericMessage] of its answer. *)
Variable messagesNew :
  bool → list AnthropicMessageParam → list (@AnthropicToolParam NativeSchema) →
  Net → Net * list string * (option Message * option error).
(** [client.Messages.CountTokens] *)
Variable messagesCountTokens :
  list AnthropicMessageParam → Net → Net * (Z * option error).

Definition Anthropic_RunInference (streaming : bool)
    (s : @AnthropicClient NativeSchema * Net)
  : (@AnthropicClient NativeSchema * Net) * list string * (option Message * option error) :=
  let '(c, net) := s in
  if bool_decide (length (anthropic_history c) = 0%nat)
  then (s, [], (None, Some "anthropic: no messages in conversation history"))
  else
    let '(net', deltas, (resp, runErr)) :=
      messagesNew streaming (anthropic_history c) (anthropic_tools c) net in
    match runErr with
    | Some e => ((c, net'), deltas, (None, Some e))
    | None => ((c, net'), deltas, (resp, None))
    end.

Definition Anthropic_CountTokens (s : @AnthropicClient NativeSchema * Net)
  : (@AnthropicClient NativeSchema * Net) * (Z * option error) :=
  let '(c, net) := s in
  let '(net', (count, err)) := messagesCountTokens (anthropic_history c) net in
  match err with
  | Some e => ((c, net'), (0, Some e))
  | None => ((c, net'), (count, None))
  end.

Definition on_client {C A : Type} (f : C → C * A) (s : C * Net) : (C * Net) * A :=
  let '(c, x) := f s.1 in ((c, s.2), x).

Definition AnthropicLLM
  : @LLMClient W (@AnthropicClient NativeSchema * Net) Schema :=
  {| RunInference := Anthropic_RunInference;
     CountTokens := Anthropic_CountTokens;
     SummarizeHistory := BaseSummarizeHistory;
     TruncateMessage := BaseTruncateMessage;
     ToNativeHistory := λ history, on_client (λ c, Anthropic_ToNativeHistory c history);
     ToNativeMessage := λ msg, on_client (λ c, Anthropic_ToNativeMessage c msg);
     ToNativeTools :=
       λ tools, on_client (λ c, Anthropic_ToNativeTools toInputSchemaParam c tools) |}.
End AnthropicLLM.

Section GeminiLLM.
Context {NativeSchema Args : Type}.
Variable ConvertToGeminiSchema : Schema → NativeSchema + error.
Variable unmarshalArgs : RawMessage → Args + error.
Variable thoughtSignature : RawMessage → option string.
Variable generateContent :
  bool → list (@GeminiContent Args) → list (@GeminiTool NativeSchema) →
  Net → Net * list string * (option Message * option error).
Variable modelsCountTokens :
  list (@GeminiContent Args) → Net → Net * (Z * option error).

Abbreviation GeminiState := (@GeminiClient NativeSchema Args * Net)%type.

Definition Gemini_RunInference (streaming : bool) (s : GeminiState)
  : GeminiState * list string * (option Message * option error) :=
  let '(c, net) := s in
  if bool_decide (length (gemini_contents c) = 0%nat)
  then (s, [], (None, Some "gemini: no messages in conversation history"))
  else
    let '(net', deltas, (resp, runErr)) :=
      generateContent streaming (gemini_contents c) (gemini_tools c) net in
    match runErr with
    | Some e => ((c, net'), deltas, (None, Some e))
    | None => ((c, net'), deltas, (resp, None))
    end.

Definition Gemini_CountTokens (s : GeminiState) : GeminiState * (Z * option error) :=
  let '(c, net) := s in
  let '(net', (count, err)) := modelsCountTokens (gemini_contents c) net in
  match err with
  | Some e => ((c, net'), (0, Some e))
  | None => ((c, net'), (count, None))
  end.

Definition GeminiLLM : @LLMClient W GeminiState Schema :=
  {| RunInference := Gemini_RunInference;
     CountTokens := Gemini_CountTokens;
     SummarizeHistory := BaseSummarizeHistory;
     TruncateMessage := BaseTruncateMessage;
     ToNativeHistory :=
       λ history, on_client
         (λ c, Gemini_ToNativeHistory unmarshalArgs thoughtSignature c history);
     ToNativeMessage :=
       λ msg, on_client
         (λ c, Gemini_ToNativeMessage unmarshalArgs thoughtSignature c msg);
     ToNativeTools :=
       λ tools, on_client (λ c, Gemini_ToNativeTools ConvertToGeminiSchema c tools) |}.
End GeminiLLM.
End ProviderClients.

(** ** [gemini.go]: from the provider's answer to a message *)

Section GeminiAnswers.
Context {Args : Type}.
(** [json.Marshal] of the arguments of a function call, and of the bytes
    of a thought signature. *)
Variable marshalArgs : Args → RawMessage + error.
Variable marshalThought : string → RawMessage + error.

(** [genai.FunctionCall] *)
Record GeminiFunctionCall : Type := mkGeminiFunctionCall {
  callID : string;
  callName : string;
  callArgs : Args;
}.

(** The fields of [genai.Part] the client reads in an answer; a nil
    [ThoughtSignature] is [None]. *)
Record AnswerPart : Type := mkAnswerPart {
  partText : string;
  partFunctionCall : option GeminiFunctionCall;
  partThoughtSignature : option string;
}.

(** [genai.Candidate] with the parts of its [Content], [None] for a nil
    content. *)
Record Candidate : Type := mkCandidate {
  candidateContent : option (list AnswerPart);
  FinishReason : string;
}.

Record GenerateContentResponse : Type := mkGenerateContentResponse {
  Candidates : list Candidate;
}.

(** What the iterator of [GenerateContentStream] yields. *)
Inductive StreamItem : Type :=
| Chunk (chunk : GenerateContentResponse)
| EOF
| Failed (err : error).

(** The statements under [if p.FunctionCall != nil], the same in both
    inference functions: the tool use of a function call. *)
Definition toolCall (p : AnswerPart) (fc : GeminiFunctionCall) : ContentBlock + error :=
  match marshalArgs (callArgs fc) with
  | inr err => inr ("failed to marshal function args: " +:+ err)
  | inl input =>
      match partThoughtSignature p with
      | Some sig =>
          match marshalThought sig with
          | inr err => inr ("failed to marshal thought: " +:+ err)
          | inl thought => inl (ToolUseBlock (callID fc) (callName fc) input thought)
          end
      | None => inl (ToolUseBlock (callID fc) (callName fc) input EmptyString)
      end
  end.

(** The loop over the parts in [runInferenceSnapshot]. *)
Fixpoint snapshot_parts (parts : list AnswerPart) (fullText : string)
    (blocks : list ContentBlock) : (string * list ContentBlock) + error :=
  match parts with
  | [] => inl (fullText, blocks)
  | p :: rest =>
      let fullText :=
        if bool_decide (partText p ≠ EmptyString) then fullText +:+ partText p
        else fullText in
      match partFunctionCall p with
      | Some fc =>
          match toolCall p fc with
          | inr err => inr err
          | inl toolCall => snapshot_parts rest fullText (blocks ++ [toolCall])
          end
      | None => snapshot_parts rest fullText blocks
      end
  end.

(** [GeminiClient.runInferenceSnapshot], on what [Models.GenerateContent]
    returned. *)
Definition runInferenceSnapshot (response : GenerateContentResponse + error)
  : option Message * option error :=
  match response with
  | inr err => (None, Some ("gemini snapshot call failed: " +:+ err))
  | inl response =>
      match Candidates response with
      | [] => (None, Some "no content returned")
      | best :: _ =>
          match candidateContent best with
          | None => (None, Some "no content returned")
          | Some parts =>
              match snapshot_parts parts EmptyString [] with
              | inr err => (None, Some err)
              | inl (fullText, blocks) =>
                  let content :=
                    if bool_decide (fullText ≠ EmptyString)
                    then [NewTextBlock fullText] else [] in
                  (Some (mkMessage ModelRole (content ++ blocks) 0 0), None)
              end
          end
      end
  end.

(** The loop over the parts of one chunk in [runInferenceStream];
    [deltas] are the calls of [onDelta] so far. *)
Fixpoint stream_parts (parts : list AnswerPart) (fullText : string)
    (blocks : list ContentBlock) (deltas : list string)
  : list string * ((string * list ContentBlock) + error) :=
  match parts with
  | [] => (deltas, inl (fullText, blocks))
  | p :: rest =>
      let '(fullText, deltas) :=
        if bool_decide (partText p ≠ EmptyString)
        then (fullText +:+ partText p, deltas ++ [partText p])
        else (fullText, deltas ++ [String "010"%char EmptyString]) in
      match partFunctionCall p with
      | Some fc =>
          match toolCall p fc with
          | inr err => (deltas, inr err)
          | inl toolCall => stream_parts rest fullText (blocks ++ [toolCall]) deltas
          end
      | None => stream_parts rest fullText blocks deltas
      end
  end.

(** The loop over the chunks. [outputContents] is filled and never read,
    so the chunks that are only recorded there are just passed over. *)
Fixpoint stream_chunks (response : list StreamItem) (fullText : string)
    (blocks : list ContentBlock) (deltas : list string)
  : list string * ((string * list ContentBlock) + error) :=
  match response with
  | [] => (deltas, inl (fullText, blocks))
  | EOF :: _ => (deltas, inl (fullText, blocks))
  | Failed err :: _ => (deltas, inr err)
  | Chunk chunk :: rest =>
      match Candidates chunk with
      | [] => (deltas, inr "no content returned")
      | bestCandidate :: _ =>
          match candidateContent bestCandidate with
          | None => (deltas, inr "no content returned")
          | Some parts =>
              if bool_decide (length parts = 0%nat)
                 && bool_decide (FinishReason bestCandidate ≠ EmptyString)
              then stream_chunks rest fullText blocks deltas
              else
                match stream_parts parts fullText blocks deltas with
                | (deltas, inr err) => (deltas, inr err)
                | (deltas, inl (fullText, blocks)) =>
                    stream_chunks rest fullText blocks deltas
                end
          end
      end
  end.

(** [GeminiClient.runInferenceStream], on what the iterator of
    [Models.GenerateContentStream] yields: the calls of [onDelta] and the
    result. *)
Definition runInferenceStream (response : list StreamItem)
  : list string * (option Message * option error) :=
  match stream_chunks response EmptyString [] [] with
  | (deltas, inr err) => (deltas, (None, Some err))
  | (deltas, inl (fullText, blocks)) =>
      let blocks :=
        if bool_decide (0 < len fullText) then blocks ++ [NewTextBlock fullText]
        else blocks in
      if bool_decide (length blocks = 0%nat)
      then (deltas, (None, Some "gemini: model returned no usable content"))
      else (deltas, (Some (mkMessage ModelRole blocks 0 0), None))
  end.

End GeminiAnswers.

(** ** package server: the ids in request paths *)

(** [parseConvID] *)
Definition parseConvID (path : string) : string * bool :=
  let path := TrimSuffix path "/" in
  if bool_decide (path = "/conversations") then (EmptyString, false)
  else if negb (HasPrefix path "/conversations/") then (EmptyString, false)
  else
    let id := TrimPrefix path "/conversations/" in
    if Contains id "/" then (EmptyString, false) else (id, true).

(** [parsePlanID] *)
Definition parsePlanID (path : string) : string * bool :=
  let path := TrimSuffix path "/" in
  if bool_decide (path = "/plans") then (EmptyString, false)
  else if negb (HasPrefix path "/plans/") then (EmptyString, false)
  else
    let id := TrimPrefix path "/plans/" in
    if Contains id "/" then (EmptyString, false) else (id, true).

(** ** The conversations the orchestrator can produce *)

(** [data.NewConversation] *)
Definition NewConversation (id : string) (now : Z) : Conversation :=
  mkConversation id [] 0 now.

(** One operation of the orchestrator on [a.Conv]: an [Append] in the turn
    loop, or the compaction at the start of [Run]. *)
Inductive conv_step : Conversation → Conversation → Prop :=
| step_Append c msg now c' :
    Append c (Some msg) now = Done c' → conv_step c c'
| step_compact c msgs :
    BaseSummarizeHistory (Messages c) 20 = Done msgs →
    conv_step c (with_Messages c msgs).

Definition reachable (c : Conversation) : Prop :=
  ∃ id now, rtc conv_step (NewConversation id now) c.

(** The same operations while the history has never exceeded the
    compaction threshold. *)
Inductive conv_step_within : Conversation → Conversation → Prop :=
| within_Append c msg now c' :
    Append c (Some msg) now = Done c' → conv_step_within c c'
| within_compact c msgs :
    (length (Messages c) ≤ 20)%nat →
    BaseSummarizeHistory (Messages c) 20 = Done msgs →
    conv_step_within c (with_Messages c msgs).

(** [Messages[i].Sequence == i] for every index. *)
Definition sequenced (msgs : list Message) : Prop :=
  ∀ (i : nat) (m : Message), msgs !! i = Some m → Sequence m = Z.of_nat i.

(** ** The design document's wording, for comparison with the code *)

Module Spec.

(** "if [len(history) <= threshold], return unchanged; otherwise return
    [[history[0]] + history[len(history)-threshold:]]" *)
Definition SummarizeHistory {A : Type} (history : list A) (threshold : Z) : list A :=
  if bool_decide (Z.of_nat (length history) ≤ threshold) then history
  else take 1 history ++ drop (Z.to_nat (Z.of_nat (length history) - threshold)) history.

(** "for each ToolResult block whose content length >= threshold, replace
    content with [content[:threshold/2] + marker + content[len-threshold/2:]];
    other blocks untouched" *)
Definition truncate_each (marker : string) (threshold : Z) (b : ContentBlock)
  : ContentBlock :=
  match b with
  | ToolResultBlock toolUseID toolName content isError =>
      if bool_decide (threshold ≤ len content) then
        ToolResultBlock toolUseID toolName
          (prefix_bytes (Z.to_nat (threshold `quot` 2)) content +:+ marker +:+
           suffix_from (Z.to_nat (len content - threshold `quot` 2)) content) isError
      else b
  | _ => b
  end.

Definition marker : string := "...[TRUNCATED]...".

Definition TruncateMessage (msg : Message) (threshold : Z) : Message :=
  with_Content msg (truncate_each marker threshold <$> Content msg).

End Spec.

(** Whether a block is a tool result shorter than the threshold: the case
    in which [BaseTruncateMessage] returns. *)
Definition short_result (threshold : Z) (b : ContentBlock) : bool :=
  match b with
  | ToolResultBlock _ _ content _ => bool_decide (len content < threshold)
  | _ => false
  end.

(** The rewritten content of a tool result, as [BaseTruncateMessage]
    computes it. *)
Definition truncated_content (content : string) (threshold : Z) : string :=
  prefix_bytes (Z.to_nat (threshold `quot` 2)) content +:+ truncation_marker +:+
  suffix_from (Z.to_nat (len content - threshold `quot` 2)) content.

(** Whether a block is a tool result of at least the threshold. *)
Definition long_result (threshold : Z) (b : ContentBlock) : bool :=
  match b with
  | ToolResultBlock _ _ content _ => bool_decide (threshold ≤ len content)
  | _ => false
  end.

(** The blocks before index [i] hold no tool result shorter than the
    threshold. *)
Definition none_short_before (i : nat) (blocks : list ContentBlock) (t : Z) : Prop :=
  ∀ (j : nat) (b : ContentBlock),
    (j < i)%nat → blocks !! j = Some b → short_result t b = false.

(** The ids of the tool uses of a message, in order, and the id a block
    answers when it is a tool result. *)
Definition tool_use_ids (blocks : list ContentBlock) : list string :=
  omap (λ b, match b with ToolUseBlock id _ _ _ => Some id | _ => None end) blocks.

Definition answered_id (b : ContentBlock) : option string :=
  match b with
  | ToolResultBlock toolUseID _ _ _ => Some toolUseID
  | _ => None
  end.

(** A method that leaves [a.Conv] and the provider client as they are. *)
Definition keeps_conversation {W S Schema Server A : Type}
    (m : @M W S Schema Server A) : Prop :=
  ∀ a x a', m a = Done (x, a') → Conv a' = Conv a ∧ LLM a' = LLM a.

(** The message as [Append] stores it in a conversation of [n] messages. *)
Definition stamped (m : Message) (now : Z) (n : nat) : Message :=
  mkMessage (Role m) (Content m) now (Z.of_nat n).

(** The agent when the dispatch loop of a pass starts: the provider has
    answered [m] (client state [s], fragments [deltas]), the answer is
    translated (client state [s']) and appended. *)
Definition after_model_message {W S Schema Server Args : Type}
    (env : @Env W Server Args) (a : @Agent W S Schema Server)
    (s : S) (deltas : list string) (m : Message) (s' : S) : @Agent W S Schema Server :=
  set_Conv
    (set_LLM (emit (set_LLM (emit a [EvRunInference]) s) (EvDelta <$> deltas)) s')
    (with_Messages (Conv a)
       (Messages (Conv a)
        ++ [stamped m (timeNow env (world a)) (length (Messages (Conv a)))])).

(** ** What the provider clients accept *)

(** The roles the Anthropic client translates. *)
Definition anthropic_role (m : Message) : Prop :=
  Role m = UserRole ∨ Role m = AssistantRole.

Global Instance anthropic_role_dec (m : Message) : Decision (anthropic_role m).
Proof. unfold anthropic_role. apply _. Defined.

(** The native form the Anthropic client gives to a message. *)
Definition anthropic_param (m : Message) : AnthropicMessageParam :=
  mkAnthropicMessageParam (Role m) (toBlocks (Content m)).

(** A block that gives a part in [toParts]: a text that is not empty, a
    tool use whose input decodes, any tool result. *)
Definition gemini_usable {Args : Type} (unmarshalArgs : RawMessage → Args + error)
    (b : ContentBlock) : Prop :=
  match b with
  | TextBlock text => text ≠ EmptyString
  | ToolUseBlock _ _ input _ => ∃ args, unmarshalArgs input = inl args
  | ToolResultBlock _ _ _ _ => True
  end.

(** The native form the Gemini client gives to a message. *)
Definition gemini_content {Args : Type} (unmarshalArgs : RawMessage → Args + error)
    (thoughtSignature : RawMessage → option string) (m : Message) : GeminiContent :=
  mkGeminiContent (Role m) (toParts unmarshalArgs thoughtSignature (Content m)).

(** ** What an answer of the Gemini provider holds *)

Section AnswerContents.
Context {Args : Type}.

(** The parts the client reads from a response: those of its first
    candidate. *)
Definition chunk_parts (chunk : @GenerateContentResponse Args) : list AnswerPart :=
  match Candidates chunk with
  | best :: _ => default [] (candidateContent best)
  | [] => []
  end.

(** The parts of the chunks of a stream up to its end. *)
Fixpoint stream_read (response : list (@StreamItem Args)) : list AnswerPart :=
  match response with
  | Chunk chunk :: rest => chunk_parts chunk ++ stream_read rest
  | _ => []
  end.

(** The texts of the parts, joined, and the function calls, in order. *)
Definition answer_text (parts : list (@AnswerPart Args)) : string :=
  foldr (λ p text, partText p +:+ text) EmptyString parts.

Definition answer_calls (parts : list (@AnswerPart Args)) : list GeminiFunctionCall :=
  omap partFunctionCall parts.

(** What [onDelta] is called with for a part. *)
Definition answer_delta (p : @AnswerPart Args) : string :=
  if bool_decide (partText p ≠ EmptyString) then partText p
  else String "010"%char EmptyString.

(** The block is the tool use of the function call. *)
Definition answers_call (marshalArgs : Args → RawMessage + error)
    (b : ContentBlock) (fc : GeminiFunctionCall) : Prop :=
  ∃ input thought,
    b = ToolUseBlock (callID fc) (callName fc) input thought
    ∧ marshalArgs (callArgs fc) = inl input.

End AnswerContents.

(** The one text block of an answer, when it has text. *)
Definition text_blocks (text : string) : list ContentBlock :=
  if bool_decide (text ≠ EmptyString) then [TextBlock text] else [].

(** ** Test doubles

    Stand-ins for the collaborators, in the manner of [MockAPIClient] and
    of the tool boxes of [agent_test.go]: a store that keeps one plan, a
    scripted provider behind the Anthropic client, and four tools. *)

Module Fixture.

Record World : Type := mkWorld {
  stored_plan : option Plan;
  saved : list Conversation;
  sub_answers : list (option Message * option error);
  clock : Z;
}.

Definition Net : Type := list (option Message * option error) * (Z * option error).

Definition quote : string := String "034"%char EmptyString.

(** The JSON object with the one field [query]. *)
Definition json_query (q : string) : RawMessage :=
  "{" +:+ quote +:+ "query" +:+ quote +:+ ":" +:+ quote +:+ q +:+ quote +:+ "}".

(** JSON that is well formed and not a [FinderInput]: the field holds a
    number. *)
Definition json_query_number : RawMessage :=
  "{" +:+ quote +:+ "query" +:+ quote +:+ ":5}".

Definition strip_prefix (p s : string) : option string :=
  if String.prefix p s then Some (suffix_from (String.length p) s) else None.

(** Decoding of [FinderInput] for the inputs used here. *)
Definition decode_query (raw : RawMessage) : string + error :=
  match strip_prefix ("{" +:+ quote +:+ "query" +:+ quote +:+ ":" +:+ quote) raw with
  | Some rest =>
      let n := (String.length rest - 2)%nat in
      if bool_decide (suffix_from n rest = quote +:+ "}") then inl (prefix_bytes n rest)
      else inr "unexpected end of JSON input"
  | None => inr "json: cannot unmarshal number into Go struct field FinderInput.query of type string"
  end.

Definition get_plan (id : string) (w : World) : World * (option Plan * option error) :=
  match stored_plan w with
  | Some p => (w, (Some p, None))
  | None => (w, (None, Some "plan not found"))
  end.

Definition create_plan (conversationID : string) (w : World)
  : World * (option Plan * option error) :=
  let p := mkPlan "plan-1" conversationID [] in
  (mkWorld (Some p) (saved w) (sub_answers w) (clock w), (Some p, None)).

Definition save_plan (p : Plan) (w : World) : World * option error :=
  (mkWorld (Some p) (saved w) (sub_answers w) (clock w), None).

Definition save_conversation (c : Conversation) (w : World) : World * option error :=
  (mkWorld (stored_plan w) (saved w ++ [c]) (sub_answers w) (clock w), None).

(** The subagent gives its scripted answers in turn. *)
Definition sub_run (description query : string) (w : World)
  : World * (option Message * option error) :=
  match sub_answers w with
  | [] => (w, (None, Some "inference failed"))
  | r :: rest => (mkWorld (stored_plan w) (saved w) rest (clock w), r)
  end.

Definition env : @Env World string RawMessage :=
  {| GetPlan := get_plan;
     CreatePlan := create_plan;
     SavePlan := save_plan;
     SaveConversation := save_conversation;
     ServerCall := λ server name args w, (w, (Some ("called " +:+ name), None));
     decodeArgs := λ raw, raw;
     decodeQuery := decode_query;
     SubRun := sub_run;
     SubTruncateMessage := BaseTruncateMessage;
     timeNow := clock;
     FormatToolResultMessage :=
       λ name input isError, name +:+ (if isError then " failed" else " done") |}.

Definition pure_tool (name : string) (out : string) (err : option error)
  : ToolDefinition World unit :=
  mkToolDefinition name ("A tool called " +:+ name) tt
    (λ input w, mkToolOutcome out err (InputPlan input) w) false.

(** As in [agent_test.go]. *)
Definition test_tool := pure_tool "test_tool" "test result" None.
Definition error_tool := pure_tool "error_tool" EmptyString (Some "tool execution failed").

(** A [plan_write] that adds the step named by its input, and fails on
    input that is not the one-field object, leaving the plan as it is. *)
Definition plan_write : ToolDefinition World unit :=
  mkToolDefinition ToolNamePlanWrite "Write the plan" tt
    (λ input w,
       match decode_query (RawInput input) with
       | inl step =>
           let p := InputPlan input in
           mkToolOutcome ("Added 1 steps to plan '" +:+ PlanID p +:+ "'") None
             (mkPlan (PlanID p) (ConversationID p) (Steps p ++ [mkStep step step "TODO"])) w
       | inr e => mkToolOutcome EmptyString (Some e) (InputPlan input) w
       end) false.

(** The delegating tool. *)
Definition finder : ToolDefinition World unit :=
  mkToolDefinition "finder" "Find code" tt
    (λ input w, mkToolOutcome EmptyString None (InputPlan input) w) true.

Definition tool_box : list (ToolDefinition World unit) :=
  [test_tool; error_tool; plan_write; finder].

(** The provider answers from its script; the token count is fixed. *)
Definition messages_new (streaming : bool) (history : list AnthropicMessageParam)
    (tools : list (@AnthropicToolParam unit)) (net : Net)
  : Net * list string * (option Message * option error) :=
  match net.1 with
  | [] => (net, [], (None, Some "anthropic snapshot call failed: no answer"))
  | r :: rest => ((rest, net.2), [], r)
  end.

Definition messages_count_tokens (history : list AnthropicMessageParam) (net : Net)
  : Net * (Z * option error) := (net, net.2).

Definition client : @LLMClient World (@AnthropicClient unit * Net) unit :=
  AnthropicLLM (λ _, tt) messages_new messages_count_tokens.

Definition conversation (msgs : list Message) : Conversation :=
  mkConversation "conv-1" msgs 0 0.

Definition world0 : World := mkWorld None [] [] 0.

(** An agent over the given history whose provider will give the
    [answers] in turn. *)
Definition agent (msgs : list Message) (answers : list (option Message * option error))
    (count : Z * option error) (w : World)
  : @Agent World (@AnthropicClient unit * Net) unit string :=
  mkAgent (mkAnthropicClient [] [], (answers, count)) tool_box (conversation msgs)
    None 0 ∅ false w [].

Definition text_message (role text : string) : Message :=
  mkMessage role [NewTextBlock text] 0 0.

(** A conversation grown from a new one by [n] calls of [Append]. *)
Fixpoint grown (n : nat) : Conversation :=
  match n with
  | O => NewConversation "conv-1" 0
  | Datatypes.S n' =>
      match Append (grown n') (Some (mkMessage UserRole [NewTextBlock "turn"] 0 0)) 0 with
      | Done c => c
      | Panic => grown n'
      end
  end.

Definition tool_use_message (uses : list ContentBlock) : Message :=
  mkMessage AssistantRole uses 0 0.

(** What a test reads off a call: the value a method returned, and how a
    [Run] ended with the messages of the conversation at that point. *)
Definition returned {W S Schema Server A : Type}
    (r : go (A * @Agent W S Schema Server)) : go A :=
  match r with
  | Done (x, _) => Done x
  | Panic => Panic
  end.

Definition conversation_after {W S Schema Server : Type}
    (r : @RunResult W S Schema Server) : go (option error * list Message) :=
  match r with
  | Returned err a => Done (err, Messages (Conv a))
  | StillRunning a => Done (None, Messages (Conv a))
  | Panicked => Panic
  end.

(** A store whose [SaveConversation] fails. *)
Definition failing_store_env : @Env World string RawMessage :=
  mkEnv (GetPlan env) (CreatePlan env) (SavePlan env)
    (λ c w, (w, Some "request failed"))
    (ServerCall env) (decodeArgs env) (decodeQuery env) (SubRun env)
    (SubTruncateMessage env) (timeNow env) (FormatToolResultMessage env).

(** The same agent with the tool [name] served by an MCP server. *)
Definition with_server {S : Type} (a : @Agent World S unit string) (name server : string)
  : @Agent World S unit string :=
  mkAgent (LLM a) (ToolBox a) (Conv a) (AgentPlan a) (TokenCount a)
    (<[name := server]> (ToolMap a)) (streaming a) (world a) (events a).

(** The Gemini client over the same scripted provider; an input decodes
    when it starts as a JSON object. *)
Definition gemini_unmarshal (raw : RawMessage) : RawMessage + error :=
  if String.prefix "{" raw then inl raw else inr "invalid character".

Definition generate_content (streaming : bool) (contents : list (@GeminiContent RawMessage))
    (tools : list (@GeminiTool unit)) (net : Net)
  : Net * list string * (option Message * option error) :=
  match net.1 with
  | [] => (net, [], (None, Some "gemini snapshot call failed: no answer"))
  | r :: rest => ((rest, net.2), [], r)
  end.

Definition gemini_client
  : @LLMClient World (@GeminiClient unit RawMessage * Net) unit :=
  GeminiLLM (λ _, inl tt) gemini_unmarshal (λ _, None) generate_content
    (λ _ net, (net, net.2)).

Definition gemini_agent (tools : list (ToolDefinition World unit)) (msgs : list Message)
    (answers : list (option Message * option error)) (count : Z * option error) (w : World)
  : @Agent World (@GeminiClient unit RawMessage * Net) unit string :=
  mkAgent (mkGeminiClient [] [], (answers, count)) tools (conversation msgs)
    None 0 ∅ false w [].

(** A store that cannot be reached: [GetPlan] fails with an error that is
    not a missing plan. *)
Definition unreachable_store_env : @Env World string RawMessage :=
  mkEnv (λ id w, (w, (None, Some "connection refused")))
    (CreatePlan env) (SavePlan env) (SaveConversation env)
    (ServerCall env) (decodeArgs env) (decodeQuery env) (SubRun env)
    (SubTruncateMessage env) (timeNow env) (FormatToolResultMessage env).

(** An answer of the Gemini provider: a text, a function call, a text. *)
Definition gemini_answer : @GenerateContentResponse RawMessage :=
  mkGenerateContentResponse
    [mkCandidate
       (Some [mkAnswerPart "Let me " None None;
              mkAnswerPart EmptyString
                (Some (mkGeminiFunctionCall "call_1" "test_tool" "{}")) None;
              mkAnswerPart "look." None None])
       "STOP"].

(** An answer whose only part has neither text nor a function call. *)
Definition gemini_empty_answer : @GenerateContentResponse RawMessage :=
  mkGenerateContentResponse [mkCandidate (Some [mkAnswerPart EmptyString None None]) "STOP"].

End Fixture.

(** * Properties *)

(** ** Byte strings *)

Lemma length_prefix_bytes n s :
  (n ≤ String.length s)%nat → String.length (prefix_bytes n s) = n.
Proof.
  revert s. induction n as [|n IH]; intros [|c s] H; simpl in *; try lia.
  rewrite IH; lia.
Qed.

Lemma length_suffix_from n s :
  String.length (suffix_from n s) = (String.length s - n)%nat.
Proof. revert s. induction n as [|n IH]; intros [|c s]; simpl; auto. Qed.

Lemma length_append (a b : string) :
  String.length (a +:+ b) = (String.length a + String.length b)%nat.
Proof. induction a as [|c a IH]; simpl; auto. Qed.

Lemma prefix_bytes_append a b : prefix_bytes (String.length a) (a +:+ b) = a.
Proof.
  induction a as [|c a IH]; simpl; [by destruct b | by rewrite IH].
Qed.

Lemma suffix_from_append a b n :
  suffix_from (String.length a + n) (a +:+ b) = suffix_from n b.
Proof. induction a as [|c a IH]; simpl; auto. Qed.

(** Go's [/] rounds towards zero, so twice the half is at most one short. *)
Lemma quot_2_bounds t : t - 1 ≤ 2 * (t `quot` 2) ∧ (0 ≤ t → 2 * (t `quot` 2) ≤ t).
Proof.
  pose proof (Z.quot_rem' t 2) as Hq.
  destruct (Z_le_gt_dec 0 t) as [Hpos|Hneg].
  - pose proof (Z.rem_bound_pos t 2 Hpos ltac:(lia)). lia.
  - pose proof (Z.rem_bound_pos_neg t 2 ltac:(lia) ltac:(lia)). lia.
Qed.

(** ** History compaction *)

Example summarize_25_messages :
  BaseSummarizeHistory (seq 0 25) 20 = Done (0%nat :: seq 5 20).
Proof. reflexivity. Qed.

(** C2, as worded, at a negative threshold: the slice bound
    [len(history)-threshold] lies beyond the slice and the call panics,
    where the wording promises the list of the design document. *)
Lemma summarize_negative_threshold_panics :
  BaseSummarizeHistory [0%nat] (-1) = Panic
  ∧ BaseSummarizeHistory [0%nat] (-1) ≠ Done (Spec.SummarizeHistory [0%nat] (-1)).
Proof. split; [reflexivity | discriminate]. Qed.

(** C2 (amended): for every history [H] and threshold [t >= 0]: if
    [len(H) <= t] the history is returned unchanged; otherwise the result
    has length [t+1], its first element is [H[0]] and the rest is
    [H[len(H)-t:]] in the original order. *)
Theorem summarize_history_correct {A : Type} (H : list A) (t : Z) :
  0 ≤ t →
  (Z.of_nat (length H) ≤ t → BaseSummarizeHistory H t = Done H)
  ∧ (t < Z.of_nat (length H) →
     ∃ first,
       H !! 0%nat = Some first
       ∧ BaseSummarizeHistory H t = Done (first :: drop (length H - Z.to_nat t) H)
       ∧ Z.of_nat (length (first :: drop (length H - Z.to_nat t) H)) = t + 1).
Proof.
  intros Ht. unfold BaseSummarizeHistory. split; intros Hlen.
  - by rewrite bool_decide_eq_true_2.
  - rewrite bool_decide_eq_false_2 by lia.
    destruct H as [|first rest]; [simpl in Hlen; lia|].
    exists first. split; [done|]. cbn [lookup list_lookup go_bind].
    rewrite bool_decide_eq_true_2 by lia. cbn [go_bind app].
    replace (Z.to_nat (Z.of_nat (length (first :: rest)) - t))
      with (length (first :: rest) - Z.to_nat t)%nat by lia.
    split; [done|].
    cbn [length]. rewrite length_drop. simpl in Hlen |- *. lia.
Qed.

Lemma summarize_history_correct_witness :
  BaseSummarizeHistory (seq 0 25) 20 = Done (0%nat :: drop 5 (seq 0 25)).
Proof.
  destruct (summarize_history_correct (seq 0 25) 20 ltac:(lia)) as [_ Hgt].
  destruct (Hgt ltac:(simpl; lia)) as (first & Hfirst & Heq & _).
  simpl in Hfirst. injection Hfirst as <-. exact Heq.
Defined.

(** Agreement with the wording of the design document on that domain. *)
Lemma summarize_history_refines {A : Type} (H : list A) (t : Z) :
  0 ≤ t → BaseSummarizeHistory H t = Done (Spec.SummarizeHistory H t).
Proof.
  intros Ht. unfold BaseSummarizeHistory, Spec.SummarizeHistory.
  case_bool_decide as Hc; [done|].
  destruct H as [|first rest]; [simpl in Hc; lia|].
  cbn [lookup list_lookup go_bind]. rewrite bool_decide_eq_true_2 by lia.
  reflexivity.
Qed.

(** ** Truncation of tool results *)

Example truncate_one_block :
  truncate_blocks [ToolResultBlock "i" "t" "abcdefghij" false] 4
  = Done [ToolResultBlock "i" "t" ("ab" +:+ truncation_marker +:+ "ij") false].
Proof. reflexivity. Qed.

(** A nil message is dereferenced. *)
Lemma truncate_nil_message t : BaseTruncateMessage None t = Panic.
Proof. reflexivity. Qed.

Lemma len_truncated_content content t :
  0 ≤ t `quot` 2 ≤ len content →
  len (truncated_content content t) = 2 * (t `quot` 2) + 21.
Proof.
  intros Hq. unfold truncated_content, len in *.
  rewrite !length_append, length_prefix_bytes, length_suffix_from by lia.
  change (String.length truncation_marker) with 21%nat. lia.
Qed.

(** Truncating a truncated content gives it back: the kept head and tail
    are again its first and last [threshold/2] bytes. *)
Lemma truncated_content_fixed content t :
  0 ≤ t `quot` 2 ≤ len content →
  truncated_content (truncated_content content t) t = truncated_content content t.
Proof.
  intros Hq.
  pose proof (len_truncated_content content t Hq) as Hlen.
  set (head := prefix_bytes (Z.to_nat (t `quot` 2)) content).
  set (tail := suffix_from (Z.to_nat (len content - t `quot` 2)) content).
  assert (Hhead : String.length head = Z.to_nat (t `quot` 2)).
  { apply length_prefix_bytes. unfold len in Hq. lia. }
  assert (Htail : String.length tail = Z.to_nat (t `quot` 2)).
  { unfold tail. rewrite length_suffix_from. unfold len in *. lia. }
  unfold truncated_content at 1. fold head tail in Hlen |- *.
  change (truncated_content content t) with (head +:+ truncation_marker +:+ tail).
  change (truncated_content content t) with (head +:+ truncation_marker +:+ tail) in Hlen.
  f_equal; [|f_equal].
  - rewrite <- Hhead. apply prefix_bytes_append.
  - rewrite Hlen.
    replace (Z.to_nat (2 * t `quot` 2 + 21 - t `quot` 2))
      with (String.length head + (String.length truncation_marker + 0))%nat
      by (rewrite Hhead; change (String.length truncation_marker) with 21%nat; lia).
    rewrite !suffix_from_append. reflexivity.
Qed.

(** What [truncate_blocks] does with a tool result that is not short. *)
Lemma truncate_blocks_long id name content isError rest t :
  ¬ len content < t →
  truncate_blocks (ToolResultBlock id name content isError :: rest) t =
  if bool_decide (0 ≤ t `quot` 2 ≤ len content) then
    let! rest' := truncate_blocks rest t in
    Done (ToolResultBlock id name (truncated_content content t) isError :: rest')
  else Panic.
Proof.
  intros Hlong. cbn [truncate_blocks]. rewrite bool_decide_eq_false_2 by done.
  unfold slice_to, slice_from, NewToolResultBlock, truncated_content.
  destruct (decide (0 ≤ t `quot` 2 ≤ len content)) as [Hq|Hq].
  - rewrite !bool_decide_eq_true_2 by lia. reflexivity.
  - rewrite !(bool_decide_eq_false_2 (0 ≤ t `quot` 2 ≤ len content)) by done.
    reflexivity.
Qed.

Lemma truncate_blocks_idempotent blocks t out :
  truncate_blocks blocks t = Done out → truncate_blocks out t = Done out.
Proof.
  revert out. induction blocks as [|b rest IH]; intros out Hrun.
  { by injection Hrun as <-. }
  destruct b as [text | id name input thought | id name content isError].
  - cbn [truncate_blocks] in Hrun.
    destruct (truncate_blocks rest t) as [rest'|] eqn:Hrest; [|done].
    injection Hrun as <-. cbn [truncate_blocks]. by rewrite (IH rest').
  - cbn [truncate_blocks] in Hrun.
    destruct (truncate_blocks rest t) as [rest'|] eqn:Hrest; [|done].
    injection Hrun as <-. cbn [truncate_blocks]. by rewrite (IH rest').
  - destruct (decide (len content < t)) as [Hshort|Hlong].
    + cbn [truncate_blocks] in Hrun |- *.
      rewrite bool_decide_eq_true_2 in Hrun by done. injection Hrun as <-.
      cbn [truncate_blocks]. by rewrite bool_decide_eq_true_2.
    + rewrite truncate_blocks_long in Hrun by done.
      case_bool_decide as Hq; [|done].
      destruct (truncate_blocks rest t) as [rest'|] eqn:Hrest; [|done].
      injection Hrun as <-.
      pose proof (len_truncated_content content t Hq) as Hlen.
      pose proof (quot_2_bounds t) as [Hlow _].
      rewrite truncate_blocks_long by lia.
      rewrite bool_decide_eq_true_2 by lia.
      rewrite (IH rest') by done. cbn [go_bind].
      by rewrite truncated_content_fixed.
Qed.

(** C7: [TruncateMessage] is idempotent: for every message (nil
    included) and every threshold, applying it to its own result gives that
    result again, and a call that panics panics. *)
Theorem truncate_message_idempotent (msg : option Message) (t : Z) :
  (let! once := BaseTruncateMessage msg t in BaseTruncateMessage (Some once) t)
  = BaseTruncateMessage msg t.
Proof.
  destruct msg as [m|]; [|done]. unfold BaseTruncateMessage.
  destruct (truncate_blocks (Content m) t) as [out|] eqn:Hrun; [|done].
  cbn [go_bind with_Content Content].
  by rewrite (truncate_blocks_idempotent _ _ _ Hrun).
Qed.

Lemma truncate_blocks_spec blocks t :
  0 ≤ t →
  ∃ out,
    truncate_blocks blocks t = Done out
    ∧ length out = length blocks
    ∧ ∀ (i : nat) (b : ContentBlock), blocks !! i = Some b →
        (long_result t b = false → out !! i = Some b)
        ∧ (none_short_before i blocks t →
           out !! i = Some (Spec.truncate_each truncation_marker t b)).
Proof.
  intros Ht. induction blocks as [|b rest (out' & Hrest & Hlen & IH)].
  { exists []. by split_and!. }
  assert (Htail : ∀ (head : ContentBlock), short_result t b = false →
    ∀ i b', (b :: rest) !! S i = Some b' →
      (long_result t b' = false → (head :: out') !! S i = Some b')
      ∧ (none_short_before (S i) (b :: rest) t →
         (head :: out') !! S i = Some (Spec.truncate_each truncation_marker t b'))).
  { intros head Hb i b' Hi. destruct (IH i b' Hi) as [IH1 IH2]. split; [done|].
    intros Hnone. apply IH2. intros j bj Hj Hbj.
    apply (Hnone (S j) bj); [lia | done]. }
  destruct b as [text | id name input thought | id name content isError].
  - exists (TextBlock text :: out'). cbn [truncate_blocks]. rewrite Hrest.
    split_and!; [done | by cbn; rewrite Hlen |].
    intros [|i] b' Hi; [by injection Hi as <- | by apply Htail].
  - exists (ToolUseBlock id name input thought :: out'). cbn [truncate_blocks].
    rewrite Hrest. split_and!; [done | by cbn; rewrite Hlen |].
    intros [|i] b' Hi; [by injection Hi as <- | by apply Htail].
  - destruct (decide (len content < t)) as [Hshort|Hlong].
    + exists (ToolResultBlock id name content isError :: rest).
      cbn [truncate_blocks]. rewrite bool_decide_eq_true_2 by done.
      split_and!; [done..|].
      intros [|i] b' Hi.
      * injection Hi as <-. split; [done|]. intros _. cbn.
        by rewrite bool_decide_eq_false_2 by lia.
      * split; [done|]. intros Hnone.
        specialize (Hnone 0%nat _ ltac:(lia) eq_refl). cbn in Hnone.
        by rewrite bool_decide_eq_true_2 in Hnone.
    + exists (ToolResultBlock id name (truncated_content content t) isError :: out').
      rewrite truncate_blocks_long by done.
      pose proof (quot_2_bounds t) as [_ Hup]. specialize (Hup Ht).
      assert (0 ≤ t `quot` 2) by (apply Z.quot_pos; lia).
      rewrite bool_decide_eq_true_2 by lia. rewrite Hrest.
      split_and!; [done | by cbn; rewrite Hlen |].
      intros [|i] b' Hi.
      * injection Hi as <-. split.
        { cbn. by rewrite bool_decide_eq_true_2 by lia. }
        intros _. cbn. by rewrite bool_decide_eq_true_2 by lia.
      * apply Htail; [|done]. cbn. by rewrite bool_decide_eq_false_2.
Qed.

(** C6, as worded, at a message of three tool results (long, short, long)
    and threshold 4: the code marks the cut with
    [\n... [TRUNCATED] ...\n], not with [...[TRUNCATED]...], and it leaves
    the third block as it is, having returned at the second. *)
Lemma truncate_message_differs_from_wording :
  let msg := mkMessage UserRole
               [ToolResultBlock "1" "t" "abcdefghij" false;
                ToolResultBlock "2" "t" "xy" false;
                ToolResultBlock "3" "t" "0123456789" false] 0 0 in
  BaseTruncateMessage (Some msg) 4 =
    Done (mkMessage UserRole
            [ToolResultBlock "1" "t" ("ab" +:+ truncation_marker +:+ "ij") false;
             ToolResultBlock "2" "t" "xy" false;
             ToolResultBlock "3" "t" "0123456789" false] 0 0)
  ∧ BaseTruncateMessage (Some msg) 4 ≠ Done (Spec.TruncateMessage msg 4).
Proof. split; [reflexivity | discriminate]. Qed.

(** The return at the first short tool result alone, with the code's own
    marker on both sides. *)
Lemma truncate_message_stops_at_short_result :
  let blocks := [ToolResultBlock "2" "t" "xy" false;
                 ToolResultBlock "3" "t" "0123456789" false] in
  truncate_blocks blocks 4 = Done blocks
  ∧ Spec.truncate_each truncation_marker 4 <$> blocks ≠ blocks.
Proof. split; [reflexivity | discriminate]. Qed.

(** A threshold below [-1] makes the first slice bound negative. *)
Lemma truncate_message_negative_threshold_panics :
  BaseTruncateMessage (Some (mkMessage UserRole [ToolResultBlock "1" "t" "ab" false] 0 0)) (-2)
  = Panic.
Proof. reflexivity. Qed.

(** C6 (amended): for every message [m] and threshold [t >= 0],
    [TruncateMessage(m, t)] returns [m] with as many blocks as before, in
    which every block that is not a tool result, and every tool result of
    content length below [t], is untouched, and in which every tool result
    of content length at least [t] that no tool result shorter than [t]
    precedes has the content
    [content[:t/2] + "\n... [TRUNCATED] ...\n" + content[len-t/2:]]. *)
Theorem truncate_message_correct (m : Message) (t : Z) :
  0 ≤ t →
  ∃ out,
    BaseTruncateMessage (Some m) t = Done (with_Content m out)
    ∧ length out = length (Content m)
    ∧ ∀ (i : nat) (b : ContentBlock), Content m !! i = Some b →
        (long_result t b = false → out !! i = Some b)
        ∧ (long_result t b = true → none_short_before i (Content m) t →
           ∃ id name content isError,
             b = ToolResultBlock id name content isError
             ∧ out !! i = Some (ToolResultBlock id name
                 (prefix_bytes (Z.to_nat (t `quot` 2)) content +:+ truncation_marker +:+
                  suffix_from (Z.to_nat (len content - t `quot` 2)) content) isError)).
Proof.
  intros Ht. destruct (truncate_blocks_spec (Content m) t Ht) as (out & Hrun & Hlen & Hout).
  exists out. unfold BaseTruncateMessage. rewrite Hrun. split_and!; [done..|].
  intros i b Hi. destruct (Hout i b Hi) as [Hkeep Hcut]. split; [done|].
  intros Hlong Hnone. destruct b as [| |id name content isError]; try done.
  exists id, name, content, isError. split; [done|].
  rewrite (Hcut Hnone). cbn in Hlong |- *. by destruct (bool_decide _).
Qed.

Lemma truncate_message_correct_witness :
  0 ≤ 4
  ∧ ∃ out,
      BaseTruncateMessage
        (Some (mkMessage UserRole [TextBlock "note"; ToolResultBlock "1" "t" "abcdefghij" false] 0 0)) 4
      = Done (with_Content
                (mkMessage UserRole [TextBlock "note"; ToolResultBlock "1" "t" "abcdefghij" false] 0 0)
                out)
      ∧ out !! 1%nat = Some (ToolResultBlock "1" "t" ("ab" +:+ truncation_marker +:+ "ij") false).
Proof.
  split; [lia|].
  destruct (truncate_message_correct
              (mkMessage UserRole [TextBlock "note"; ToolResultBlock "1" "t" "abcdefghij" false] 0 0)
              4 ltac:(lia)) as (out & Hrun & _ & Hout).
  exists out. split; [exact Hrun|].
  destruct (Hout 1%nat _ eq_refl) as [_ Hcut].
  destruct Hcut as (id & name & content & isError & Heq & ->); [reflexivity | |].
  - intros [|[|j]] b Hj Hb; [by injection Hb as <- | lia | lia].
  - by injection Heq as <- <- <- <-.
Defined.

(** ** Sequence numbers *)

Lemma Append_Done c m now :
  Append c (Some m) now =
  Done (with_Messages c
          (Messages c ++ [mkMessage (Role m) (Content m) now (Z.of_nat (length (Messages c)))])).
Proof. reflexivity. Qed.

(** [Append] numbers the new message with its index and leaves the earlier
    entries as they are. *)
Lemma Append_sequenced c m now c' :
  Append c (Some m) now = Done c' →
  (∀ (i : nat) (x : Message), Messages c !! i = Some x → Messages c' !! i = Some x)
  ∧ (sequenced (Messages c) → sequenced (Messages c')).
Proof.
  rewrite Append_Done. intros [= <-]. cbn [Messages with_Messages]. split.
  - intros i x Hi. by apply lookup_app_l_Some.
  - intros Hseq i x Hi. apply lookup_app_Some in Hi as [Hi|[Hlen Hi]].
    + by apply Hseq.
    + apply list_lookup_singleton_Some in Hi as [Hi <-]. cbn. lia.
Qed.

(** Compaction of a history within the threshold changes nothing. *)
Lemma compaction_within_threshold (msgs out : list Message) :
  (length msgs ≤ 20)%nat → BaseSummarizeHistory msgs 20 = Done out → out = msgs.
Proof.
  intros Hlen. unfold BaseSummarizeHistory.
  rewrite bool_decide_eq_true_2 by lia. by intros [= <-].
Qed.

Lemma grown_reachable n : rtc conv_step (NewConversation "conv-1" 0) (Fixture.grown n).
Proof.
  induction n as [|n IH]; [done|]. cbn [Fixture.grown]. rewrite Append_Done.
  eapply rtc_r; [exact IH|]. eapply step_Append. apply Append_Done.
Qed.

(** C8, as worded, after 22 appends and the compaction that opens the next
    [Run]: the conversation is reachable, its second message still carries
    the sequence number 2, and the invariant fails. *)
Lemma compaction_breaks_sequence :
  ∃ c m, reachable c ∧ Messages c !! 1%nat = Some m ∧ Sequence m = 2
         ∧ ¬ sequenced (Messages c).
Proof.
  destruct (BaseSummarizeHistory (Messages (Fixture.grown 22)) 20) as [msgs|] eqn:Hsum;
    [|by vm_compute in Hsum].
  exists (with_Messages (Fixture.grown 22) msgs).
  assert (Hsecond : msgs !! 1%nat = Some (mkMessage UserRole [NewTextBlock "turn"] 0 2)).
  { vm_compute in Hsum. injection Hsum as <-. reflexivity. }
  eexists. split_and!; [| exact Hsecond | done |].
  - exists "conv-1", 0. eapply rtc_r; [apply grown_reachable|].
    by apply step_compact.
  - intros Hseq. by specialize (Hseq 1%nat _ Hsecond).
Qed.

(** C8 (amended): for every conversation grown from a new one by [Append]
    calls, with compaction running only while the history holds at most 20
    messages, [Messages[i].Sequence == i] for every index [i]; and each
    further such operation leaves every message already in the list, with
    its sequence number, in its place. *)
Theorem sequence_numbers_within_threshold (id : string) (now : Z) (c : Conversation) :
  rtc conv_step_within (NewConversation id now) c →
  sequenced (Messages c)
  ∧ ∀ c', conv_step_within c c' →
      ∀ (i : nat) (m : Message), Messages c !! i = Some m → Messages c' !! i = Some m.
Proof.
  intros Hreach. split.
  - revert c Hreach.
    apply (rtc_ind_r (λ c, sequenced (Messages c)) (NewConversation id now));
      [by intros i m|].
    intros c1 c2 _ Hstep IH.
    destruct Hstep as [c1 msg t c2 Happ | c1 msgs Hlen Hsum].
    + by apply (Append_sequenced _ _ _ _ Happ).
    + by rewrite (compaction_within_threshold _ _ Hlen Hsum).
  - intros c' Hstep. destruct Hstep as [c1 msg t c2 Happ | c1 msgs Hlen Hsum].
    + by apply (Append_sequenced _ _ _ _ Happ).
    + by rewrite (compaction_within_threshold _ _ Hlen Hsum).
Qed.

Lemma sequence_numbers_within_threshold_witness :
  rtc conv_step_within (NewConversation "conv-1" 0) (Fixture.grown 2)
  ∧ sequenced (Messages (Fixture.grown 2)).
Proof.
  assert (Hreach : rtc conv_step_within (NewConversation "conv-1" 0) (Fixture.grown 2)).
  { eapply rtc_l; [eapply within_Append; apply Append_Done|].
    eapply rtc_l; [eapply within_Append; apply Append_Done|]. apply rtc_refl. }
  split; [exact Hreach|].
  exact (proj1 (sequence_numbers_within_threshold "conv-1" 0 _ Hreach)).
Defined.

(** ** Translation of an empty tool list *)

(** C10, as worded, at the Gemini client: an empty tool list is refused
    with an error. *)
Lemma gemini_refuses_empty_tools :
  ToNativeTools
    (GeminiLLM (W := unit) (Net := unit) (λ _ : unit, inl tt) (λ raw, inl raw) (λ _, None)
       (λ _ _ _ net, (net, [], (None, None))) (λ _ net, (net, (0, None))))
    [] (mkGeminiClient [] [], tt)
  = ((mkGeminiClient [] [], tt), Some "gemini: no tools provided")
  ∧ ToNativeTools
      (GeminiLLM (W := unit) (Net := unit) (λ _ : unit, inl tt) (λ raw, inl raw) (λ _, None)
         (λ _ _ _ net, (net, [], (None, None))) (λ _ net, (net, (0, None))))
      [] (mkGeminiClient [] [], tt)
    ≠ ((mkGeminiClient [] [], tt), None).
Proof. split; [reflexivity | discriminate]. Qed.

(** C10 (amended): [ToNativeTools] applied to an empty list leaves the
    client's native tool state unchanged in both provider clients; the
    Anthropic client returns nil and the Gemini client returns the error
    [gemini: no tools provided]. *)
Theorem empty_tools_leave_state_unchanged
    {W Schema Net NativeA NativeG Args : Type}
    (toInputSchemaParam : Schema → NativeA)
    (messagesNew : bool → list AnthropicMessageParam → list (@AnthropicToolParam NativeA) →
                   Net → Net * list string * (option Message * option error))
    (messagesCountTokens : list AnthropicMessageParam → Net → Net * (Z * option error))
    (ConvertToGeminiSchema : Schema → NativeG + error)
    (unmarshalArgs : RawMessage → Args + error)
    (thoughtSignature : RawMessage → option string)
    (generateContent : bool → list (@GeminiContent Args) → list (@GeminiTool NativeG) →
                       Net → Net * list string * (option Message * option error))
    (modelsCountTokens : list (@GeminiContent Args) → Net → Net * (Z * option error))
    (a : @AnthropicClient NativeA * Net) (g : @GeminiClient NativeG Args * Net) :
  ToNativeTools
    (AnthropicLLM (W := W) toInputSchemaParam messagesNew messagesCountTokens) [] a
  = (a, None)
  ∧ ToNativeTools
      (GeminiLLM (W := W) ConvertToGeminiSchema unmarshalArgs thoughtSignature
         generateContent modelsCountTokens) [] g
    = (g, Some "gemini: no tools provided").
Proof. destruct a, g. split; reflexivity. Qed.

(** ** Plan tool execution *)

Section PlanToolFacts.
Context {W S Schema Server Args : Type}.
Variable env : @Env W Server Args.
Implicit Types (a : @Agent W S Schema Server) (toolDef : ToolDefinition W Schema).

(** C5: once the plan is resolved, be it fetched or, on a not-found
    answer, created, [executePlanTool] calls the tool function and then
    [SavePlan] on the plan as the function left it, whatever error the
    function returned. That error decides nothing: when the save succeeds
    the call returns the function's response and a nil error; when the
    save fails it returns the save's error. On first use (no plan found)
    the store sees exactly one [CreatePlan] and then one [SavePlan]. *)
Theorem plan_tool_persists_unconditionally a toolDef toolInput
    (w1 : W) (found : option Plan * option error)
    (p : Plan) (w2 : W) (created : list Event) (w3 : W) (saveErr : option error) :
  let id := ConvID (Conv a) in
  GetPlan env id (world a) = (w1, found) →
  (found = (Some p, None) ∧ w2 = w1 ∧ created = []
   ∨ ∃ discarded e,
       found = (discarded, Some e)
       ∧ Contains (ToLower e) "not found" = true
       ∧ CreatePlan env id w1 = (w2, (Some p, None))
       ∧ created = [EvCreatePlan id]) →
  let out := Function toolDef (mkToolInput (RawInput toolInput) p) w2 in
  SavePlan env (planAfter out) (worldAfter out) = (w3, saveErr) →
  ∃ a',
    executePlanTool env toolDef toolInput a =
      Done (match saveErr with
            | None => (response out, None)
            | Some e =>
                (EmptyString,
                 Some ("plan_write: failed to save plan '" +:+ id
                       +:+ "' after setting status: " +:+ e))
            end, a')
    ∧ world a' = w3
    ∧ events a' =
        events a ++ [EvGetPlan id] ++ created
        ++ [EvToolFunction (Name toolDef); EvSavePlan (planAfter out)]
        ++ match saveErr with
           | None => [EvPublish (mkUIState (Some (planAfter out)) 0)]
           | Some _ => []
           end
    ∧ (saveErr = None → AgentPlan a' = Some (planAfter out)).
Proof.
  intros id Hget Hresolved out Hsave.
  unfold executePlanTool, bind, get, log, call, ret. cbn.
  fold id. rewrite Hget.
  destruct Hresolved as [(-> & -> & ->) | (discarded & e & -> & Hnf & Hcreate & ->)].
  - cbn. fold out. rewrite Hsave. destruct saveErr as [e|]; cbn.
    + eexists. split_and!; [reflexivity | done | | done].
      cbn. by rewrite <- !app_assoc.
    + eexists. split_and!; [reflexivity | done | | done].
      cbn. by rewrite <- !app_assoc.
  - cbn. rewrite Hnf. cbn. rewrite Hcreate. cbn. fold out. rewrite Hsave.
    destruct saveErr as [e'|]; cbn.
    + eexists. split_and!; [reflexivity | done | | done].
      cbn. by rewrite <- !app_assoc.
    + eexists. split_and!; [reflexivity | done | | done].
      cbn. by rewrite <- !app_assoc.
Qed.

End PlanToolFacts.

(** First use, with a tool function that fails on its input: one
    [CreatePlan], one [SavePlan], and the response of the function with a
    nil error. *)
Lemma plan_tool_persists_unconditionally_witness :
  failure (Function Fixture.plan_write
             (mkToolInput Fixture.json_query_number (mkPlan "plan-1" "conv-1" []))
             Fixture.world0)
  = Some "json: cannot unmarshal number into Go struct field FinderInput.query of type string"
  ∧ ∃ a',
      executePlanTool Fixture.env Fixture.plan_write
        (mkToolInput Fixture.json_query_number emptyPlan)
        (Fixture.agent [] [] (0, None) Fixture.world0)
      = Done ((EmptyString, None), a')
      ∧ events a' =
          [EvGetPlan "conv-1"; EvCreatePlan "conv-1"; EvToolFunction "plan_write";
           EvSavePlan (mkPlan "plan-1" "conv-1" []);
           EvPublish (mkUIState (Some (mkPlan "plan-1" "conv-1" [])) 0)].
Proof.
  split; [reflexivity|].
  destruct (plan_tool_persists_unconditionally Fixture.env
              (Fixture.agent [] [] (0, None) Fixture.world0)
              Fixture.plan_write (mkToolInput Fixture.json_query_number emptyPlan)
              Fixture.world0 (None, Some "plan not found")
              (mkPlan "plan-1" "conv-1" [])
              (Fixture.mkWorld (Some (mkPlan "plan-1" "conv-1" [])) [] [] 0)
              [EvCreatePlan "conv-1"]
              (Fixture.mkWorld (Some (mkPlan "plan-1" "conv-1" [])) [] [] 0)
              None)
    as (a' & Hrun & _ & Hevents & _).
  - reflexivity.
  - right. exists None, "plan not found". split_and!; reflexivity.
  - reflexivity.
  - exists a'. split; [exact Hrun | exact Hevents].
Defined.

(** ** Tool dispatch *)

Section DispatchFacts.
Context {W S Schema Server Args : Type}.
Variable env : @Env W Server Args.
Implicit Types (a : @Agent W S Schema Server) (toolDef : ToolDefinition W Schema).

(** A name in neither the MCP tool map nor the tool box. *)
Lemma executeLocalTool_not_found a id name input :
  findTool (ToolBox a) name = None →
  executeLocalTool env id name input a
  = Done (ToolResultBlock id name "tool not found" true, a).
Proof. intros Hfind. unfold executeLocalTool, bind, get, ret. cbn. by rewrite Hfind. Qed.

Lemma executeTool_not_found a id name input :
  ToolMap a !! name = None → findTool (ToolBox a) name = None →
  executeTool env id name input a
  = Done (ToolResultBlock id name "tool not found" true,
          emit a [EvDelta (FormatToolResultMessage env name input true)]).
Proof.
  intros Hmap Hfind. unfold executeTool, bind, get, ret, log. cbn.
  by rewrite Hmap, executeLocalTool_not_found.
Qed.

(** A registered tool that neither delegates nor targets the plan: the
    error of its function becomes the content of an error result. *)
Lemma executeLocalTool_function a id name input toolDef :
  findTool (ToolBox a) name = Some toolDef →
  IsSubTool toolDef = false →
  Name toolDef ≠ ToolNamePlanWrite → Name toolDef ≠ ToolNamePlanRead →
  let out := Function toolDef (mkToolInput input emptyPlan) (world a) in
  executeLocalTool env id name input a
  = Done (match failure out with
          | Some e => ToolResultBlock id name e true
          | None => ToolResultBlock id name (response out) false
          end,
          set_world (emit a [EvToolFunction (Name toolDef)]) (worldAfter out)).
Proof.
  intros Hfind Hsub Hw Hr out.
  unfold executeLocalTool, bind, get, ret, log, call. cbn.
  rewrite Hfind, Hsub. rewrite bool_decide_eq_false_2 by tauto. cbn.
  fold out. by destruct (failure out).
Qed.

(** A delegating tool whose input does not decode: [runSubagent] reports
    the error with a nil message, and the dispatch hands that nil message
    to [TruncateMessage] before it looks at the error. *)
Lemma runSubagent_decode_failure a id name description input e :
  decodeQuery env input = inr e →
  runSubagent (S := S) (Schema := Schema) env id name description input a
  = Done ((None, Some e), a).
Proof. intros Hdec. unfold runSubagent. by rewrite Hdec. Qed.

Lemma executeLocalTool_delegation_failure a id name input toolDef e :
  findTool (ToolBox a) name = Some toolDef →
  IsSubTool toolDef = true →
  decodeQuery env input = inr e →
  SubTruncateMessage env = BaseTruncateMessage →
  executeLocalTool env id name input a = Panic.
Proof.
  intros Hfind Hsub Hdec Htrunc.
  unfold executeLocalTool, bind, get. cbn. rewrite Hfind, Hsub.
  rewrite (runSubagent_decode_failure _ _ _ _ _ e) by done. unfold lift. by rewrite Htrunc.
Qed.

(** Whenever a dispatch returns, it returns a tool result that carries
    the id and the name it was given. *)
Lemma executeLocalTool_answers a id name input r a' :
  executeLocalTool env id name input a = Done (r, a') →
  ∃ content isError, r = ToolResultBlock id name content isError.
Proof.
  unfold executeLocalTool, bind, get, ret, lift. cbn.
  destruct (findTool (ToolBox a) name) as [toolDef|]; [|intros [= <- <-]; eauto].
  destruct (IsSubTool toolDef).
  - destruct (runSubagent env id name (Description toolDef) input a)
      as [[[msg err] a1]|]; [|done].
    destruct (SubTruncateMessage env msg 25000); [|done].
    destruct err; intros [= <- <-]; eauto.
  - match goal with
    | |- context [if ?b then _ else _] => destruct b
    end.
    + destruct (executePlanTool env toolDef (mkToolInput input emptyPlan) a)
        as [[[out err] a1]|]; [|done].
      destruct err; intros [= <- <-]; eauto.
    + unfold log, call. cbn.
      destruct (failure _); intros [= <- <-]; eauto.
Qed.

Lemma executeMCPTool_answers a id name input server r a' :
  executeMCPTool env id name input server a = Done (r, a') →
  ∃ content isError, r = ToolResultBlock id name content isError.
Proof.
  unfold executeMCPTool, bind, ret, log, call. cbn.
  destruct (ServerCall env server name (decodeArgs env input) (world a))
    as [w [[content|] [err|]]]; cbn; try (intros [= <- <-]; eauto).
  case_bool_decide; intros [= <- <-]; eauto.
Qed.

Lemma executeTool_answers a id name input r a' :
  executeTool env id name input a = Done (r, a') →
  ∃ content isError, r = ToolResultBlock id name content isError.
Proof.
  unfold executeTool, bind, get, ret, log. cbn.
  destruct (ToolMap a !! name) as [server|].
  - destruct (executeMCPTool env id name input server a) as [[r1 a1]|] eqn:Hrun; [|done].
    intros [= <- <-]. by eapply executeMCPTool_answers.
  - destruct (executeLocalTool env id name input a) as [[r1 a1]|] eqn:Hrun; [|done].
    intros [= <- <-]. by eapply executeLocalTool_answers.
Qed.

(** The dispatch loop, when it completes: one tool result per tool use,
    in the same order, each carrying the id of the tool use it answers. *)
Lemma dispatch_answers blocks a results a' :
  dispatch env blocks a = Done (results, a') →
  answered_id <$> results = Some <$> tool_use_ids blocks.
Proof.
  revert a results a'. induction blocks as [|b rest IH]; intros a results a'.
  { by intros [= <- <-]. }
  destruct b as [text | id name input thought | id name content isError];
    cbn [dispatch tool_use_ids omap list_omap]; [by apply IH | | by apply IH].
  unfold bind, ret.
  destruct (executeTool env id name input a) as [[r a1]|] eqn:Hrun; [|done].
  destruct (dispatch env rest a1) as [[rs a2]|] eqn:Hrest; [|done].
  intros [= <- <-]. apply executeTool_answers in Hrun as (content & isError & ->).
  cbn. f_equal. by eapply IH.
Qed.

End DispatchFacts.

(** ** The turn loop *)

Section RunFacts.
Context {W S Schema Server Args : Type}.
Variable client : @LLMClient W S Schema.
Variable env : @Env W Server Args.
Implicit Types (a : @Agent W S Schema Server) (toolDef : ToolDefinition W Schema).

Local Arguments saveConversation : simpl never.

Local Ltac keeps_step :=
  repeat (case_match; simplify_eq/=); try done.

Lemma keeps_executePlanTool toolDef toolInput :
  keeps_conversation (executePlanTool (S := S) env toolDef toolInput).
Proof.
  intros a x a'. unfold executePlanTool, bind, get, ret, log, call. cbn.
  intros Hrun. keeps_step.
Qed.

Lemma keeps_executeLocalTool id name input :
  keeps_conversation (executeLocalTool (S := S) (Schema := Schema) env id name input).
Proof.
  intros a x a'. unfold executeLocalTool, bind, get, ret, lift. cbn.
  destruct (findTool (ToolBox a) name) as [toolDef|]; [|by intros [= <- <-]].
  destruct (IsSubTool toolDef).
  - unfold runSubagent, bind, ret, log, call. cbn.
    intros Hrun. keeps_step.
  - case_bool_decide.
    + destruct (executePlanTool env toolDef (mkToolInput input emptyPlan) a)
        as [[[out err] a1]|] eqn:Hplan; [|done].
      apply keeps_executePlanTool in Hplan.
      destruct err; by intros [= <- <-].
    + unfold log, call. cbn. destruct (failure _); by intros [= <- <-].
Qed.

Lemma keeps_executeTool id name input :
  keeps_conversation (executeTool (S := S) (Schema := Schema) env id name input).
Proof.
  intros a x a'. unfold executeTool, bind, get, ret, log. cbn.
  destruct (ToolMap a !! name) as [server|].
  - unfold executeMCPTool, bind, ret, log, call. cbn.
    intros Hrun. keeps_step.
  - destruct (executeLocalTool env id name input a) as [[r a1]|] eqn:Hrun; [|done].
    apply keeps_executeLocalTool in Hrun. by intros [= <- <-].
Qed.

Lemma keeps_dispatch blocks :
  keeps_conversation (dispatch (S := S) (Schema := Schema) env blocks).
Proof.
  induction blocks as [|b rest IH]; intros a x a'; [by intros [= <- <-]|].
  destruct b as [text | id name input thought | id name content isError];
    cbn [dispatch]; [by apply IH | | by apply IH].
  unfold bind, ret.
  destruct (executeTool env id name input a) as [[r a1]|] eqn:Hrun; [|done].
  destruct (dispatch env rest a1) as [[rs a2]|] eqn:Hrest; [|done].
  intros [= <- <-]. apply IH in Hrest as [-> ->]. by apply keeps_executeTool in Hrun.
Qed.

(** An error that ends a pass is the error [Run] returns. *)
Lemma Run_loop_returns fuel userInput readUserInput a e a' :
  Run_pass client env userInput readUserInput a = Done (Return e, a') →
  Run_loop client env (Datatypes.S fuel) userInput readUserInput a = Returned (Some e) a'.
Proof. intros Hpass. cbn. by rewrite Hpass. Qed.

Lemma Run_loop_continues fuel userInput readUserInput a next a' :
  Run_pass client env userInput readUserInput a = Done (Continue next, a') →
  Run_loop client env (Datatypes.S fuel) userInput readUserInput a
  = Run_loop client env fuel userInput next a'.
Proof. intros Hpass. cbn. by rewrite Hpass. Qed.

(** [ToNativeMessage] fails on the user message: nothing was appended. *)
Lemma Run_pass_user_message_error userInput a s e :
  ToNativeMessage client (Some (mkMessage UserRole [NewTextBlock userInput] 0 0)) (LLM a)
    = (s, Some e) →
  Run_pass client env userInput true a = Done (Return e, set_LLM a s).
Proof. intros Htr. unfold Run_pass, bind, llm, ret. cbn. by rewrite Htr. Qed.

(** The user message translates: it is appended and the pass goes on as
    one that reads no input. *)
Lemma Run_pass_user_message userInput a s :
  ToNativeMessage client (Some (mkMessage UserRole [NewTextBlock userInput] 0 0)) (LLM a)
    = (s, None) →
  Run_pass client env userInput true a
  = Run_pass client env userInput false
      (set_Conv (set_LLM a s)
         (with_Messages (Conv a)
            (Messages (Conv a)
             ++ [stamped (mkMessage UserRole [NewTextBlock userInput] 0 0)
                   (timeNow env (world a)) (length (Messages (Conv a)))]))).
Proof.
  intros Htr. unfold Run_pass at 1, bind, llm, ret, appendToConv. cbn.
  rewrite Htr. cbn. reflexivity.
Qed.

(** [RunInference] fails: the conversation is as it was. *)
Lemma Run_pass_inference_error userInput a s deltas msg e :
  RunInference client (streaming a) (LLM a) = (s, deltas, (msg, Some e)) →
  ∃ a', Run_pass client env userInput false a = Done (Return e, a')
        ∧ Conv a' = Conv a.
Proof.
  intros Hinf. unfold Run_pass, streamResponse, bind, get, llm, ret, log. cbn.
  rewrite Hinf. cbn. eauto.
Qed.

(** [ToNativeMessage] fails on the model's message: it is not appended. *)
Lemma Run_pass_model_message_error userInput a s deltas msg s' e :
  RunInference client (streaming a) (LLM a) = (s, deltas, (msg, None)) →
  ToNativeMessage client msg s = (s', Some e) →
  ∃ a', Run_pass client env userInput false a = Done (Return e, a')
        ∧ Conv a' = Conv a.
Proof.
  intros Hinf Htr. unfold Run_pass, streamResponse, bind, get, llm, ret, log. cbn.
  rewrite Hinf. cbn. rewrite Htr. cbn. eauto.
Qed.

(** The rest of a pass once the model's message is translated and
    appended. *)
Lemma Run_pass_dispatch userInput a s deltas m s' :
  RunInference client (streaming a) (LLM a) = (s, deltas, (Some m, None)) →
  ToNativeMessage client (Some m) s = (s', None) →
  Run_pass client env userInput false a =
  match dispatch env (Content m) (after_model_message env a s deltas m s') with
  | Panic => Panic
  | Done (toolResults, a2) =>
      if bool_decide (length toolResults = 0%nat) then
        match saveConversation env a2 with
        | Panic => Panic
        | Done (_, a3) =>
            let '(s3, (count, err)) := CountTokens client (LLM a3) in
            match err with
            | Some e => Done (Return e, set_LLM a3 s3)
            | None =>
                Done (Break,
                      emit (set_TokenCount (set_LLM a3 s3) count)
                        [EvPublish (mkUIState None count)])
            end
        end
      else
        let '(s3, err) :=
          ToNativeMessage client (Some (mkMessage UserRole toolResults 0 0)) (LLM a2) in
        match err with
        | Some e => Done (Return e, set_LLM a2 s3)
        | None =>
            Done (Continue false,
                  set_Conv (set_LLM a2 s3)
                    (with_Messages (Conv a2)
                       (Messages (Conv a2)
                        ++ [stamped (mkMessage UserRole toolResults 0 0)
                              (timeNow env (world a2))
                              (length (Messages (Conv a2)))])))
        end
  end.
Proof.
  intros Hinf Htr.
  unfold Run_pass, streamResponse, bind, get, llm, ret, log, appendToConv. cbn.
  rewrite Hinf. cbn. rewrite Htr. cbn. unfold after_model_message, stamped.
  match goal with
  | |- context [dispatch env (Content m) ?a1] =>
      destruct (dispatch env (Content m) a1) as [[toolResults a2]|]; [|reflexivity]
  end.
  case_bool_decide.
  - destruct (saveConversation env a2) as [[? a3]|]; [|reflexivity].
    destruct (CountTokens client (LLM a3)) as [s3 [count [e|]]]; reflexivity.
  - destruct (ToNativeMessage client _ (LLM a2)) as [s3 [e|]]; reflexivity.
Qed.

Lemma keeps_saveConversation :
  keeps_conversation (saveConversation (S := S) (Schema := Schema) env).
Proof.
  intros a x a'. unfold saveConversation, bind, get, ret, log, call. cbn.
  case_bool_decide; cbn.
  - destruct (SaveConversation env (Conv a) (world a)). by intros [= <- <-].
  - by intros [= <- <-].
Qed.

Lemma saveConversation_returns a :
  ∃ err a', saveConversation (Schema := Schema) env a = Done (err, a').
Proof.
  unfold saveConversation, bind, get, ret, log, call. cbn.
  case_bool_decide; cbn; [|eauto].
  destruct (SaveConversation env (Conv a) (world a)). eauto.
Qed.

(** A message without tool uses is dispatched to nothing. *)
Lemma dispatch_no_tool_use blocks a :
  tool_use_ids blocks = [] → dispatch env blocks a = Done ([], a).
Proof.
  induction blocks as [|b rest IH]; [done|].
  destruct b; cbn [tool_use_ids omap list_omap dispatch]; [exact IH | done | exact IH].
Qed.

(** [CountTokens] fails at the end of a turn: the model's message stays
    appended. *)
Lemma Run_pass_count_tokens_error userInput a s deltas m s' s3 count e :
  RunInference client (streaming a) (LLM a) = (s, deltas, (Some m, None)) →
  ToNativeMessage client (Some m) s = (s', None) →
  tool_use_ids (Content m) = [] →
  CountTokens client s' = (s3, (count, Some e)) →
  ∃ a', Run_pass client env userInput false a = Done (Return e, a')
        ∧ Messages (Conv a') =
            Messages (Conv a)
            ++ [stamped m (timeNow env (world a)) (length (Messages (Conv a)))].
Proof.
  intros Hinf Htr Hnone Hcount.
  rewrite (Run_pass_dispatch userInput a s deltas m s' Hinf Htr).
  rewrite dispatch_no_tool_use by done. cbn.
  destruct (saveConversation_returns (after_model_message env a s deltas m s'))
    as (err & a3 & Hsave).
  rewrite Hsave. apply keeps_saveConversation in Hsave as [Hc3 Hl3].
  rewrite Hl3. cbn. rewrite Hcount. eexists. split; [reflexivity|].
  cbn. by rewrite Hc3.
Qed.

(** [ToNativeMessage] fails on the bundle of tool results: the model's
    message stays appended, the bundle is not. *)
Lemma Run_pass_tool_results_error userInput a s deltas m s' toolResults a2 s3 e :
  RunInference client (streaming a) (LLM a) = (s, deltas, (Some m, None)) →
  ToNativeMessage client (Some m) s = (s', None) →
  dispatch env (Content m) (after_model_message env a s deltas m s')
    = Done (toolResults, a2) →
  toolResults ≠ [] →
  ToNativeMessage client (Some (mkMessage UserRole toolResults 0 0)) s' = (s3, Some e) →
  ∃ a', Run_pass client env userInput false a = Done (Return e, a')
        ∧ Messages (Conv a') =
            Messages (Conv a)
            ++ [stamped m (timeNow env (world a)) (length (Messages (Conv a)))].
Proof.
  intros Hinf Htr Hd Hne Hres.
  rewrite (Run_pass_dispatch userInput a s deltas m s' Hinf Htr), Hd.
  apply keeps_dispatch in Hd as [Hc2 Hl2].
  rewrite bool_decide_eq_false_2 by (by destruct toolResults).
  rewrite Hl2. cbn. rewrite Hres. eexists. split; [reflexivity|].
  cbn. by rewrite Hc2.
Qed.

(** A pass that goes round again has appended the model's message and,
    after it, one user message holding one tool result per tool use of
    the model's message, in order and with matching ids; the next call of
    the model comes only in the next pass. *)
Lemma Run_pass_feeds_results userInput a s deltas m s' next a' :
  RunInference client (streaming a) (LLM a) = (s, deltas, (Some m, None)) →
  ToNativeMessage client (Some m) s = (s', None) →
  Run_pass client env userInput false a = Done (Continue next, a') →
  ∃ toolResults now,
    next = false
    ∧ toolResults ≠ []
    ∧ answered_id <$> toolResults = Some <$> tool_use_ids (Content m)
    ∧ Messages (Conv a') =
        Messages (Conv a)
        ++ [stamped m (timeNow env (world a)) (length (Messages (Conv a)));
            stamped (mkMessage UserRole toolResults 0 0) now
              (Datatypes.S (length (Messages (Conv a))))].
Proof.
  intros Hinf Htr.
  rewrite (Run_pass_dispatch userInput a s deltas m s' Hinf Htr).
  destruct (dispatch env (Content m) _) as [[toolResults a2]|] eqn:Hd; [|done].
  pose proof (dispatch_answers _ _ _ _ _ Hd) as Hans.
  apply keeps_dispatch in Hd as [Hc2 Hl2].
  case_bool_decide as Hlen.
  - destruct (saveConversation env a2) as [[? a3]|]; [|done].
    destruct (CountTokens client (LLM a3)) as [s3 [count [e|]]]; done.
  - destruct (ToNativeMessage client _ (LLM a2)) as [s3 [e|]]; [done|].
    intros [= <- <-]. exists toolResults, (timeNow env (world a2)).
    split_and!; [done | by intros -> | done |].
    cbn. rewrite Hc2. cbn. rewrite <- app_assoc. cbn.
    do 3 f_equal. unfold stamped. f_equal. rewrite length_app. cbn. lia.
Qed.

End RunFacts.

(** ** The engine on concrete turns *)

(** The scenario of the design document: the model asks for one tool and
    then answers in text; the conversation ends with four messages. *)
Example run_list_files :
  Fixture.conversation_after
    (Run Fixture.client Fixture.env 5 "list files"
       (Fixture.agent []
          [(Some (Fixture.tool_use_message [NewToolUseBlock "toolu_1" "test_tool" "{}"]), None);
           (Some (Fixture.text_message AssistantRole "done"), None)]
          (7, None) Fixture.world0))
  = Done (None,
          [mkMessage UserRole [TextBlock "list files"] 0 0;
           mkMessage AssistantRole [ToolUseBlock "toolu_1" "test_tool" "{}" EmptyString] 0 1;
           mkMessage UserRole [ToolResultBlock "toolu_1" "test_tool" "test result" false] 0 2;
           mkMessage AssistantRole [TextBlock "done"] 0 3]).
Proof. vm_compute. reflexivity. Qed.

(** A delegation that succeeds is folded into one tool result. *)
Example run_delegation :
  Fixture.returned
    (executeTool Fixture.env "toolu_1" "finder" (Fixture.json_query "parser")
       (Fixture.agent [] [] (0, None)
          (Fixture.mkWorld None []
             [(Some (Fixture.text_message AssistantRole "parser.go"), None)] 0)))
  = Done (ToolResultBlock "toolu_1" "finder" "parser.go" false).
Proof. vm_compute. reflexivity. Qed.

(** C9: the delegating tool [finder] is given an input whose [query] field
    does not decode. [runSubagent] returns the error with a nil message, as
    the design document says; the dispatch then passes the nil message to
    [TruncateMessage], which dereferences it, and panics before it reaches
    its own check of the error. *)
Theorem delegation_decode_failure_panics :
  Fixture.returned
    (runSubagent Fixture.env "toolu_1" "finder" "Find code" Fixture.json_query_number
       (Fixture.agent [] [] (0, None) Fixture.world0))
  = Done (None,
          Some "json: cannot unmarshal number into Go struct field FinderInput.query of type string")
  ∧ BaseTruncateMessage None 25000 = Panic
  ∧ executeLocalTool Fixture.env "toolu_1" "finder" Fixture.json_query_number
      (Fixture.agent [] [] (0, None) Fixture.world0)
    = Panic.
Proof. split_and!; vm_compute; reflexivity. Qed.

(** C1: the model asks for the delegating tool with a well-formed query
    and the subagent's own inference fails. No tool result is produced for
    the tool use and no message is appended for it: the process panics in
    the dispatch. *)
Theorem run_panics_when_delegation_fails :
  Run Fixture.client Fixture.env 5 "find the parser"
    (Fixture.agent []
       [(Some (Fixture.tool_use_message
                 [NewToolUseBlock "toolu_1" "finder" (Fixture.json_query "parser")]), None);
        (Some (Fixture.text_message AssistantRole "done"), None)]
       (7, None) Fixture.world0)
  = Panicked.
Proof. vm_compute. reflexivity. Qed.

(** C3: a stored conversation holds a message of role [model] and the turn
    runs on the Anthropic client. [ToNativeHistory] returns the error
    [anthropic: invalid message role]; [Run] drops it, goes on, and returns
    nil with the user's and the model's message appended. *)
Theorem run_drops_history_translation_error :
  (ToNativeHistory Fixture.client [Fixture.text_message ModelRole "earlier answer"]
     (mkAnthropicClient [] [], ([], (7, None)))).2
  = Some "anthropic: invalid message role"
  ∧ Fixture.conversation_after
      (Run Fixture.client Fixture.env 5 "hello"
         (Fixture.agent [Fixture.text_message ModelRole "earlier answer"]
            [(Some (Fixture.text_message AssistantRole "hi"), None)]
            (7, None) Fixture.world0))
    = Done (None,
            [mkMessage ModelRole [TextBlock "earlier answer"] 0 0;
             mkMessage UserRole [TextBlock "hello"] 0 1;
             mkMessage AssistantRole [TextBlock "hi"] 0 2]).
Proof. split; vm_compute; reflexivity. Qed.

(** In general: whatever the two translations before the loop return,
    error or nil, [Run] enters the loop. *)
Lemma Run_setup_drops_errors
    {W S Schema Server : Type} (client : @LLMClient W S Schema)
    (a : @Agent W S Schema Server) (msgs : list Message)
    (s1 s2 : S) (historyErr toolsErr : option error) :
  SummarizeHistory client (Messages (Conv a)) 20 = Done msgs →
  msgs ≠ [] →
  ToNativeHistory client msgs (LLM a) = (s1, historyErr) →
  ToNativeTools client (ToolBox a) s1 = (s2, toolsErr) →
  Run_setup client a = Done (tt, set_LLM (set_Conv a (with_Messages (Conv a) msgs)) s2).
Proof.
  intros Hsum Hne Hhist Htools. unfold Run_setup, bind, get, lift, llm, ret. cbn.
  rewrite Hsum. cbn. rewrite bool_decide_eq_true_2 by (by destruct msgs).
  cbn. rewrite Hhist. cbn. by rewrite Htools.
Qed.

(** C4: [plan_write] is called with an input its function rejects. The
    function returns an error; the assignment of [SavePlan]'s result to the
    same variable loses it, and the dispatch answers with a tool result that
    is not an error and has the empty response as content. *)
Theorem plan_tool_error_is_not_reported :
  failure (Function Fixture.plan_write
             (mkToolInput Fixture.json_query_number (mkPlan "plan-1" "conv-1" []))
             (Fixture.mkWorld (Some (mkPlan "plan-1" "conv-1" [])) [] [] 0))
  = Some "json: cannot unmarshal number into Go struct field FinderInput.query of type string"
  ∧ Fixture.returned
      (executeTool Fixture.env "toolu_1" "plan_write" Fixture.json_query_number
         (Fixture.agent [] [] (0, None) Fixture.world0))
    = Done (ToolResultBlock "toolu_1" "plan_write" EmptyString false).
Proof. split; vm_compute; reflexivity. Qed.

(** The sibling path: the same kind of error from a tool that does not
    target the plan is reported. *)
Example ordinary_tool_error_is_reported :
  Fixture.returned
    (executeTool Fixture.env "toolu_1" "error_tool" "{}"
       (Fixture.agent [] [] (0, None) Fixture.world0))
  = Done (ToolResultBlock "toolu_1" "error_tool" "tool execution failed" true).
Proof. vm_compute. reflexivity. Qed.

Example unknown_tool_is_reported :
  Fixture.returned
    (executeTool Fixture.env "toolu_1" "nonexistent_tool" "{}"
       (Fixture.agent [] [] (0, None) Fixture.world0))
  = Done (ToolResultBlock "toolu_1" "nonexistent_tool" "tool not found" true).
Proof. vm_compute. reflexivity. Qed.

(** * Further properties *)

(** ** Compaction and truncation *)

(** X1: compacting a compacted history changes nothing: for every history
    and threshold, [SummarizeHistory] applied to its own result gives that
    result again (and a call that panics, panics). *)
Theorem summarize_history_idempotent {A : Type} (H : list A) (t : Z) :
  (let! once := BaseSummarizeHistory H t in BaseSummarizeHistory once t)
  = BaseSummarizeHistory H t.
Proof.
  destruct (decide (Z.of_nat (length H) ≤ t)) as [Hle|Hgt].
  { assert (Hrun : BaseSummarizeHistory H t = Done H).
    { unfold BaseSummarizeHistory. by rewrite bool_decide_eq_true_2. }
    rewrite Hrun. exact Hrun. }
  destruct H as [|first rest].
  { unfold BaseSummarizeHistory. by rewrite bool_decide_eq_false_2. }
  set (lo := Z.of_nat (length (first :: rest)) - t).
  assert (Hrun : BaseSummarizeHistory (first :: rest) t =
                 if bool_decide (0 ≤ lo ≤ Z.of_nat (length (first :: rest)))
                 then Done (first :: drop (Z.to_nat lo) (first :: rest)) else Panic).
  { unfold BaseSummarizeHistory. rewrite bool_decide_eq_false_2 by done.
    cbn [lookup list_lookup go_bind]. fold lo. by destruct (bool_decide _). }
  rewrite Hrun. case_bool_decide as Hlo; [|done]. cbn [go_bind].
  set (kept := drop (Z.to_nat lo) (first :: rest)).
  assert (Hkept : Z.of_nat (length kept) = t).
  { unfold kept. rewrite length_drop. lia. }
  unfold BaseSummarizeHistory. cbn [length].
  rewrite bool_decide_eq_false_2 by lia. cbn [lookup list_lookup go_bind].
  rewrite bool_decide_eq_true_2 by lia. cbn [go_bind app].
  replace (Z.to_nat (Z.of_nat (Datatypes.S (length kept)) - t)) with 1%nat by lia.
  reflexivity.
Qed.

(** X2: what compaction returns is the history with messages left out,
    never reordered or added: a sublist of the history that starts with the
    same message and, for a threshold of at least 1, ends with the same
    message. *)
Theorem summarize_history_sublist {A : Type} (H out : list A) (t : Z) :
  BaseSummarizeHistory H t = Done out →
  sublist out H ∧ head out = head H ∧ (1 ≤ t → last out = last H).
Proof.
  unfold BaseSummarizeHistory. case_bool_decide as Hle.
  { by intros [= <-]. }
  destruct H as [|first rest]; [done|]. cbn [lookup list_lookup go_bind].
  case_bool_decide as Hlo; [|done]. cbn [go_bind app]. intros [= <-].
  match goal with
  | |- context [drop ?n (first :: rest)] =>
      assert (Hn : ∃ k, n = Datatypes.S k ∧ (1 ≤ t → (k < length rest)%nat))
        by (exists (n - 1)%nat; cbn [length] in *; lia)
  end.
  destruct Hn as (k & -> & Hk).
  change (drop (Datatypes.S k) (first :: rest)) with (drop k rest). split_and!.
  - apply sublist_skip, sublist_drop.
  - done.
  - intros Ht. specialize (Hk Ht).
    rewrite !last_cons.
    destruct (last (drop k rest)) as [x|] eqn:Hlast.
    + rewrite <- (take_drop k rest) at 1. rewrite last_app, Hlast. done.
    + apply last_None in Hlast. apply (f_equal length) in Hlast.
      rewrite length_drop in Hlast. simpl in Hlast. lia.
Qed.

Lemma summarize_history_sublist_witness :
  BaseSummarizeHistory (seq 0 25) 20 = Done (0%nat :: seq 5 20)
  ∧ sublist (0%nat :: seq 5 20) (seq 0 25)
  ∧ last (0%nat :: seq 5 20) = last (seq 0 25).
Proof.
  assert (Hrun : BaseSummarizeHistory (seq 0 25) 20 = Done (0%nat :: seq 5 20))
    by reflexivity.
  destruct (summarize_history_sublist _ _ _ Hrun) as (Hsub & _ & Hlast).
  split_and!; [exact Hrun | exact Hsub | apply Hlast; lia].
Defined.

(** X3: a tool result that [TruncateMessage] rewrites has a content of
    exactly [2*(t/2) + 21] bytes, whatever its length was; a content of
    between [t] and [t + 20] bytes therefore comes out longer than it went
    in. *)
Theorem truncated_result_length (m m' : Message) (t : Z)
    (i : nat) (id name content : string) (isError : bool) :
  0 ≤ t →
  BaseTruncateMessage (Some m) t = Done m' →
  Content m !! i = Some (ToolResultBlock id name content isError) →
  t ≤ len content →
  none_short_before i (Content m) t →
  ∃ content',
    Content m' !! i = Some (ToolResultBlock id name content' isError)
    ∧ len content' = 2 * (t `quot` 2) + 21.
Proof.
  intros Ht Hrun Hi Hlong Hnone.
  destruct (truncate_blocks_spec (Content m) t Ht) as (out & Hout & _ & Hspec).
  unfold BaseTruncateMessage in Hrun. rewrite Hout in Hrun. injection Hrun as <-.
  destruct (Hspec i _ Hi) as [_ Hcut]. specialize (Hcut Hnone).
  cbn in Hcut. rewrite bool_decide_eq_true_2 in Hcut by done.
  eexists. split; [exact Hcut|].
  pose proof (quot_2_bounds t) as [_ Hup]. specialize (Hup Ht).
  apply (len_truncated_content content t).
  split; [apply Z.quot_pos; lia | lia].
Qed.

Lemma truncated_result_length_witness :
  len "abcd" = 4
  ∧ ∃ content',
      [ToolResultBlock "1" "t" ("ab" +:+ truncation_marker +:+ "cd") false] !! 0%nat
      = Some (ToolResultBlock "1" "t" content' false)
      ∧ len content' = 2 * (4 `quot` 2) + 21.
Proof.
  split; [reflexivity|].
  apply (truncated_result_length
           (mkMessage UserRole [ToolResultBlock "1" "t" "abcd" false] 0 0)
           (mkMessage UserRole
              [ToolResultBlock "1" "t" ("ab" +:+ truncation_marker +:+ "cd") false] 0 0)
           4 0%nat "1" "t" "abcd" false).
  - lia.
  - reflexivity.
  - reflexivity.
  - by vm_compute.
  - intros j b Hj. lia.
Defined.

(** ** Translation to the Anthropic form *)

Section AnthropicFacts.
Context {W Schema NativeSchema : Type}.
Implicit Types (c : @AnthropicClient NativeSchema) (m : Message).

Lemma length_toBlocks blocks : length (toBlocks blocks) = length blocks.
Proof. unfold toBlocks. by rewrite length_fmap. Qed.

Lemma Anthropic_ToNativeMessage_valid c m :
  anthropic_role m →
  Anthropic_ToNativeMessage c (Some m)
  = (mkAnthropicClient (anthropic_history c ++ [anthropic_param m]) (anthropic_tools c), None).
Proof.
  intros [Hrole|Hrole]; unfold Anthropic_ToNativeMessage, anthropic_param; rewrite Hrole.
  - by rewrite bool_decide_eq_true_2.
  - by rewrite bool_decide_eq_false_2, bool_decide_eq_true_2.
Qed.

Lemma Anthropic_ToNativeMessage_invalid c m :
  ¬ anthropic_role m →
  Anthropic_ToNativeMessage c (Some m) = (c, Some "anthropic: invalid message role").
Proof.
  intros Hrole. unfold Anthropic_ToNativeMessage, anthropic_role in *.
  case_bool_decide; [tauto|]. case_bool_decide; [tauto | done].
Qed.

(** X4: the Anthropic client translates a message exactly when it is not
    nil and its role is [user] or [assistant]. It then appends one native
    message with one native block per content block and leaves the tools
    alone; otherwise it returns an error and changes nothing. *)
Theorem anthropic_message_translation c (msg : option Message) :
  match msg with
  | Some m =>
      (anthropic_role m →
       Anthropic_ToNativeMessage c msg
       = (mkAnthropicClient (anthropic_history c ++ [anthropic_param m]) (anthropic_tools c),
          None)
       ∧ length (paramContent (anthropic_param m)) = length (Content m))
      ∧ (¬ anthropic_role m →
         Anthropic_ToNativeMessage c msg = (c, Some "anthropic: invalid message role"))
  | None => Anthropic_ToNativeMessage c msg = (c, Some "anthropic: message is nil")
  end.
Proof.
  destruct msg as [m|]; [|done]. split.
  - intros Hrole. split; [by apply Anthropic_ToNativeMessage_valid|].
    apply length_toBlocks.
  - apply Anthropic_ToNativeMessage_invalid.
Qed.

(** The loop of [ToNativeHistory]: it translates the messages up to the
    first one of another role. *)
Lemma Anthropic_translate_all_spec c history :
  ∃ good rest,
    history = good ++ rest
    ∧ Forall anthropic_role good
    ∧ (rest = []
       ∧ Anthropic_translate_all c history
         = (mkAnthropicClient (anthropic_history c ++ (anthropic_param <$> good))
              (anthropic_tools c), None)
       ∨ ∃ bad rest',
           rest = bad :: rest' ∧ ¬ anthropic_role bad
           ∧ Anthropic_translate_all c history
             = (mkAnthropicClient (anthropic_history c ++ (anthropic_param <$> good))
                  (anthropic_tools c), Some "anthropic: invalid message role")).
Proof.
  revert c. induction history as [|m history IH]; intros c.
  { exists [], []. split_and!; [done..|]. left. split; [done|].
    cbn. rewrite app_nil_r. by destruct c. }
  destruct (decide (anthropic_role m)) as [Hrole|Hrole].
  - cbn [Anthropic_translate_all]. rewrite Anthropic_ToNativeMessage_valid by done.
    destruct (IH (mkAnthropicClient (anthropic_history c ++ [anthropic_param m])
                    (anthropic_tools c)))
      as (good & rest & -> & Hgood & Hcase).
    exists (m :: good), rest. split_and!; [done | by constructor |].
    cbn [anthropic_history anthropic_tools] in Hcase.
    rewrite <- !app_assoc in Hcase. exact Hcase.
  - exists [], (m :: history). split_and!; [done..|]. right.
    exists m, history. split_and!; [done..|].
    cbn [Anthropic_translate_all]. rewrite Anthropic_ToNativeMessage_invalid by done.
    cbn. rewrite app_nil_r. by destruct c.
Qed.

(** X5: [ToNativeHistory] of the Anthropic client succeeds exactly on a
    history that is not empty and holds only [user] and [assistant]
    messages; the native history is then the translation of these messages
    alone, in order: what the client held before is replaced, not
    extended. *)
Theorem anthropic_history_translation c history c' :
  Anthropic_ToNativeHistory c history = (c', None)
  ↔ history ≠ [] ∧ Forall anthropic_role history
    ∧ c' = mkAnthropicClient (anthropic_param <$> history) (anthropic_tools c).
Proof.
  unfold Anthropic_ToNativeHistory.
  destruct history as [|m history]; [split; [done | by intros [? _]]|].
  rewrite bool_decide_eq_false_2 by done.
  destruct (Anthropic_translate_all_spec (mkAnthropicClient [] (anthropic_tools c))
              (m :: history))
    as (good & rest & Heq & Hgood & [[-> ->] | (bad & rest' & -> & Hbad & ->)]).
  - rewrite app_nil_r in Heq. subst good. cbn. split.
    + intros [= <-]. by split_and!.
    + by intros (_ & _ & ->).
  - split; [done|]. intros (_ & Hall & _). rewrite Heq in Hall.
    apply Forall_app in Hall as [_ Hall]. by inversion Hall.
Qed.

(** X6: when [ToNativeHistory] of the Anthropic client fails on a history
    that is not empty, the native history it held is gone: the client is
    left with the translation of the messages before the first one of
    another role, and nothing of what it held before. *)
Theorem anthropic_history_failure c history c' e :
  history ≠ [] →
  Anthropic_ToNativeHistory c history = (c', Some e) →
  ∃ good bad rest,
    history = good ++ bad :: rest
    ∧ Forall anthropic_role good ∧ ¬ anthropic_role bad
    ∧ e = "anthropic: invalid message role"
    ∧ c' = mkAnthropicClient (anthropic_param <$> good) (anthropic_tools c).
Proof.
  intros Hne. unfold Anthropic_ToNativeHistory.
  rewrite bool_decide_eq_false_2 by (by destruct history).
  destruct (Anthropic_translate_all_spec (mkAnthropicClient [] (anthropic_tools c)) history)
    as (good & rest & Heq & Hgood & [[-> ->] | (bad & rest' & -> & Hbad & ->)]); [done|].
  intros [= <- <-]. by exists good, bad, rest'.
Qed.

Variable toInputSchemaParam : Schema → NativeSchema.

Lemma Anthropic_append_tools_spec c (tools : list (ToolDefinition W Schema)) :
  Anthropic_append_tools toInputSchemaParam c tools
  = (mkAnthropicClient (anthropic_history c)
       (anthropic_tools c ++ ((λ tool, (toAnthropicTool toInputSchemaParam tool).1) <$> tools)),
     None).
Proof.
  revert c. induction tools as [|tool tools IH]; intros c.
  { cbn. rewrite app_nil_r. by destruct c. }
  cbn [Anthropic_append_tools toAnthropicTool]. rewrite IH. cbn.
  by rewrite <- app_assoc.
Qed.

(** X7: [ToNativeTools] of the Anthropic client never returns an error and
    never touches the native history. For a list that is not empty the
    native tools become one entry per definition, in order, carrying its
    name and description, in place of the tools held before. *)
Theorem anthropic_tools_translation c (tools : list (ToolDefinition W Schema)) :
  (Anthropic_ToNativeTools toInputSchemaParam c tools).2 = None
  ∧ anthropic_history (Anthropic_ToNativeTools toInputSchemaParam c tools).1
    = anthropic_history c
  ∧ (tools ≠ [] →
     anthropic_tools (Anthropic_ToNativeTools toInputSchemaParam c tools).1
     = (λ tool, mkAnthropicToolParam (Name tool) (Description tool)
                  (toInputSchemaParam (InputSchema tool))) <$> tools).
Proof.
  unfold Anthropic_ToNativeTools. destruct tools as [|tool tools].
  { by rewrite bool_decide_eq_true_2. }
  rewrite bool_decide_eq_false_2 by done. rewrite Anthropic_append_tools_spec.
  by split_and!.
Qed.

End AnthropicFacts.

Lemma anthropic_history_failure_witness :
  ∃ good bad rest,
    [mkMessage UserRole [TextBlock "q"] 0 0; mkMessage ModelRole [TextBlock "a"] 0 1]
    = good ++ bad :: rest
    ∧ ¬ anthropic_role bad.
Proof.
  destruct (anthropic_history_failure (NativeSchema := unit)
              (mkAnthropicClient [mkAnthropicMessageParam "user" [AnthropicText "old"]] [])
              [mkMessage UserRole [TextBlock "q"] 0 0; mkMessage ModelRole [TextBlock "a"] 0 1]
              (mkAnthropicClient [mkAnthropicMessageParam "user" [AnthropicText "q"]] [])
              "anthropic: invalid message role")
    as (good & bad & rest & Heq & _ & Hbad & _).
  - done.
  - reflexivity.
  - by exists good, bad, rest.
Defined.

(** ** Translation to the Gemini form *)

Section GeminiFacts.
Context {W Schema NativeSchema Args : Type}.
Variable ConvertToGeminiSchema : Schema → NativeSchema + error.
Variable unmarshalArgs : RawMessage → Args + error.
Variable thoughtSignature : RawMessage → option string.
Implicit Types (c : @GeminiClient NativeSchema Args) (m : Message).

Lemma toParts_nil blocks :
  toParts unmarshalArgs thoughtSignature blocks = []
  ↔ Forall (λ b, ¬ gemini_usable unmarshalArgs b) blocks.
Proof.
  induction blocks as [|b blocks IH]; [by split|].
  rewrite Forall_cons, <- IH.
  destruct b as [text | id name input thought | id name content isError];
    cbn [toParts gemini_usable].
  - case_bool_decide; split; [done | tauto | tauto | tauto].
  - destruct (unmarshalArgs input) as [args|e]; split; try done.
    + intros [Hno _]. destruct Hno. eauto.
    + intros ->. split; [|done]. by intros [args ?].
    + tauto.
  - split; [done | tauto].
Qed.

Lemma length_toParts blocks :
  (length (toParts unmarshalArgs thoughtSignature blocks) ≤ length blocks)%nat.
Proof.
  induction blocks as [|b blocks IH]; [done|].
  destruct b; cbn [toParts length]; repeat case_match; cbn [length]; lia.
Qed.

Lemma Gemini_ToNativeMessage_usable c m :
  Exists (gemini_usable unmarshalArgs) (Content m) →
  Gemini_ToNativeMessage unmarshalArgs thoughtSignature c (Some m)
  = (mkGeminiClient
       (gemini_contents c ++ [gemini_content unmarshalArgs thoughtSignature m])
       (gemini_tools c), None).
Proof.
  intros Hany. unfold Gemini_ToNativeMessage, gemini_content.
  rewrite bool_decide_eq_false_2; [done|].
  intros Hlen. apply nil_length_inv, toParts_nil in Hlen.
  apply Exists_exists in Hany as (b & Hb & Husable).
  by eapply Forall_forall in Hlen.
Qed.

Lemma Gemini_ToNativeMessage_unusable c m :
  ¬ Exists (gemini_usable unmarshalArgs) (Content m) →
  Gemini_ToNativeMessage unmarshalArgs thoughtSignature c (Some m)
  = (c, Some "gemini: message has no content parts").
Proof.
  intros Hany. unfold Gemini_ToNativeMessage.
  rewrite bool_decide_eq_true_2; [done|].
  apply (f_equal length (y := [])), toParts_nil, Forall_forall.
  intros b Hb Husable. apply Hany, Exists_exists. eauto.
Qed.

(** X8: the Gemini client translates a message exactly when at least one
    of its blocks yields a part: a text that is not empty, a tool use whose
    input decodes, or any tool result. It then appends one native content
    with the message's role, whatever that role is, holding at most one
    part per block; a message without such a block is refused and changes
    nothing. *)
Theorem gemini_message_translation c m :
  (Exists (gemini_usable unmarshalArgs) (Content m) →
   Gemini_ToNativeMessage unmarshalArgs thoughtSignature c (Some m)
   = (mkGeminiClient
        (gemini_contents c ++ [gemini_content unmarshalArgs thoughtSignature m])
        (gemini_tools c), None)
   ∧ contentRole (gemini_content unmarshalArgs thoughtSignature m) = Role m
   ∧ (length (contentParts (gemini_content unmarshalArgs thoughtSignature m))
      ≤ length (Content m))%nat)
  ∧ (¬ Exists (gemini_usable unmarshalArgs) (Content m) →
     Gemini_ToNativeMessage unmarshalArgs thoughtSignature c (Some m)
     = (c, Some "gemini: message has no content parts")).
Proof.
  split.
  - intros Hany. split_and!; [by apply Gemini_ToNativeMessage_usable | done |].
    apply length_toParts.
  - apply Gemini_ToNativeMessage_unusable.
Qed.

Lemma Gemini_declarations_spec acc (tools : list (ToolDefinition W Schema)) :
  match Gemini_declarations ConvertToGeminiSchema acc tools with
  | inl decls =>
      ∃ new, decls = acc ++ new ∧ declName <$> new = Name <$> tools
             ∧ declDescription <$> new = Description <$> tools
  | inr e =>
      ∃ tool err, tool ∈ tools ∧ ConvertToGeminiSchema (InputSchema tool) = inr err
                  ∧ e = "failed to convert schema to Gemini format: " +:+ err
  end.
Proof.
  revert acc. induction tools as [|tool tools IH]; intros acc.
  { cbn. exists []. by rewrite app_nil_r. }
  cbn [Gemini_declarations]. unfold toFunctionDeclaration.
  destruct (ConvertToGeminiSchema (InputSchema tool)) as [params|err] eqn:Hconv.
  - specialize (IH (acc ++ [mkFunctionDeclaration (Name tool) (Description tool) params])).
    destruct (Gemini_declarations _ _ tools) as [decls|e].
    + destruct IH as (new & -> & Hnames & Hdescs).
      exists (mkFunctionDeclaration (Name tool) (Description tool) params :: new).
      rewrite <- app_assoc. split_and!; [done | |]; cbn; by f_equal.
    + destruct IH as (tool' & err & Hin & Herr & ->).
      exists tool', err. split_and!; [by right | done..].
  - exists tool, err. split_and!; [by left | done..].
Qed.

(** X9: [ToNativeTools] of the Gemini client is all or nothing. On an
    error (an empty list, or a schema that does not convert) the client is
    exactly as before; on success its contents are untouched and its tools
    are one native tool holding one declaration per definition, in order,
    with the same names and descriptions. *)
Theorem gemini_tools_translation c (tools : list (ToolDefinition W Schema)) :
  match Gemini_ToNativeTools ConvertToGeminiSchema c tools with
  | (c', Some e) =>
      c' = c
      ∧ (tools = []
         ∨ ∃ tool err, tool ∈ tools ∧ ConvertToGeminiSchema (InputSchema tool) = inr err)
  | (c', None) =>
      tools ≠ []
      ∧ gemini_contents c' = gemini_contents c
      ∧ ∃ decls, gemini_tools c' = [mkGeminiTool decls]
                 ∧ declName <$> decls = Name <$> tools
                 ∧ declDescription <$> decls = Description <$> tools
  end.
Proof.
  unfold Gemini_ToNativeTools. destruct tools as [|tool tools].
  { rewrite bool_decide_eq_true_2 by done. split; [done | by left]. }
  rewrite bool_decide_eq_false_2 by done.
  pose proof (Gemini_declarations_spec [] (tool :: tools)) as Hspec.
  destruct (Gemini_declarations _ _ _) as [decls|e].
  - destruct Hspec as (new & -> & Hnames & Hdescs). split_and!; [done..|].
    exists new. by split_and!.
  - destruct Hspec as (tool' & err & Hin & Herr & _). split; [done|].
    right. by exists tool', err.
Qed.

End GeminiFacts.

(** ** The history in the Gemini form *)

Section GeminiHistoryFacts.
Context {NativeSchema Args : Type}.
Variable unmarshalArgs : RawMessage → Args + error.
Variable thoughtSignature : RawMessage → option string.
Implicit Types (c : @GeminiClient NativeSchema Args) (m : Message).

Lemma gemini_usable_dec (b : ContentBlock) :
  {gemini_usable unmarshalArgs b} + {¬ gemini_usable unmarshalArgs b}.
Proof.
  destruct b as [text | id name input thought | id name content isError]; cbn.
  - destruct (decide (text = EmptyString)); [right | left]; tauto.
  - destruct (unmarshalArgs input) as [args|e]; [left; eauto | right; by intros [args ?]].
  - by left.
Qed.

Lemma gemini_accepts_dec m :
  {Exists (gemini_usable unmarshalArgs) (Content m)}
  + {¬ Exists (gemini_usable unmarshalArgs) (Content m)}.
Proof. apply Exists_dec, gemini_usable_dec. Qed.

(** The loop of [ToNativeHistory]: it translates the messages up to the
    first one that gives no part. *)
Lemma Gemini_translate_all_spec c history :
  ∃ good rest,
    history = good ++ rest
    ∧ Forall (λ m, Exists (gemini_usable unmarshalArgs) (Content m)) good
    ∧ (rest = []
       ∧ Gemini_translate_all unmarshalArgs thoughtSignature c history
         = (mkGeminiClient
              (gemini_contents c ++ (gemini_content unmarshalArgs thoughtSignature <$> good))
              (gemini_tools c), None)
       ∨ ∃ bad rest',
           rest = bad :: rest'
           ∧ ¬ Exists (gemini_usable unmarshalArgs) (Content bad)
           ∧ Gemini_translate_all unmarshalArgs thoughtSignature c history
             = (mkGeminiClient
                  (gemini_contents c
                   ++ (gemini_content unmarshalArgs thoughtSignature <$> good))
                  (gemini_tools c), Some "gemini: message has no content parts")).
Proof.
  revert c. induction history as [|m history IH]; intros c.
  { exists [], []. split_and!; [done..|]. left. split; [done|].
    cbn. rewrite app_nil_r. by destruct c. }
  destruct (gemini_accepts_dec m) as [Hok|Hno].
  - cbn [Gemini_translate_all]. rewrite Gemini_ToNativeMessage_usable by done.
    destruct (IH (mkGeminiClient
                    (gemini_contents c ++ [gemini_content unmarshalArgs thoughtSignature m])
                    (gemini_tools c)))
      as (good & rest & -> & Hgood & Hcase).
    exists (m :: good), rest. split_and!; [done | by constructor |].
    cbn [gemini_contents gemini_tools] in Hcase.
    rewrite <- !app_assoc in Hcase. exact Hcase.
  - exists [], (m :: history). split_and!; [done..|]. right.
    exists m, history. split_and!; [done..|].
    cbn [Gemini_translate_all]. rewrite Gemini_ToNativeMessage_unusable by done.
    cbn. rewrite app_nil_r. by destruct c.
Qed.

(** X10: [ToNativeHistory] of the Gemini client. An empty history is an
    error that leaves the client as it is. A history in which every message
    gives at least one part replaces the native contents by its
    translation, message by message and whatever the roles are. Otherwise
    the call fails at the first message that gives no part, and the client
    is left with the translation of the messages before it: the contents it
    held are gone. The tools are never touched. *)
Theorem gemini_history_translation c history :
  match Gemini_ToNativeHistory unmarshalArgs thoughtSignature c history with
  | (c', None) =>
      history ≠ []
      ∧ Forall (λ m, Exists (gemini_usable unmarshalArgs) (Content m)) history
      ∧ c' = mkGeminiClient (gemini_content unmarshalArgs thoughtSignature <$> history)
               (gemini_tools c)
  | (c', Some e) =>
      (history = [] ∧ c' = c ∧ e = "gemini: empty conversation history")
      ∨ ∃ good bad rest,
          history = good ++ bad :: rest
          ∧ Forall (λ m, Exists (gemini_usable unmarshalArgs) (Content m)) good
          ∧ ¬ Exists (gemini_usable unmarshalArgs) (Content bad)
          ∧ e = "gemini: message has no content parts"
          ∧ c' = mkGeminiClient (gemini_content unmarshalArgs thoughtSignature <$> good)
                   (gemini_tools c)
  end.
Proof.
  unfold Gemini_ToNativeHistory. destruct history as [|m history].
  { rewrite bool_decide_eq_true_2 by done. by left. }
  rewrite bool_decide_eq_false_2 by done.
  destruct (Gemini_translate_all_spec (mkGeminiClient [] (gemini_tools c)) (m :: history))
    as (good & rest & Heq & Hgood & [[-> ->] | (bad & rest' & -> & Hbad & ->)]).
  - rewrite app_nil_r in Heq. subst good. by split_and!.
  - right. by exists good, bad, rest'.
Qed.

End GeminiHistoryFacts.


(** ** Dispatch, tool by tool *)

Section DispatchProperties.
Context {W S Schema Server Args : Type}.
Variable env : @Env W Server Args.
Implicit Types (a : @Agent W S Schema Server) (toolDef : ToolDefinition W Schema).

Lemma findTool_None (tools : list (ToolDefinition W Schema)) (name : string) :
  (∀ tool, tool ∈ tools → Name tool ≠ name) → findTool tools name = None.
Proof.
  induction tools as [|tool tools IH]; intros Hnone; [done|]. cbn [findTool].
  rewrite bool_decide_eq_false_2 by (apply Hnone; by left).
  apply IH. intros t Hin. apply Hnone. by right.
Qed.

(** X11: the lookup in the tool box finds nothing exactly when no tool has
    the name; what it finds is the first tool of that name in the box, so a
    later tool of the same name is never run. *)
Theorem findTool_first_match (tools : list (ToolDefinition W Schema)) (name : string) :
  match findTool tools name with
  | None => ∀ tool, tool ∈ tools → Name tool ≠ name
  | Some toolDef =>
      ∃ before after,
        tools = before ++ toolDef :: after
        ∧ Name toolDef = name
        ∧ ∀ tool, tool ∈ before → Name tool ≠ name
  end.
Proof.
  induction tools as [|tool tools IH]; cbn [findTool].
  { intros tool Hin. by apply elem_of_nil in Hin. }
  case_bool_decide as Hname.
  - exists [], tools. split_and!; [done..|]. intros t Hin. by apply elem_of_nil in Hin.
  - destruct (findTool tools name) as [toolDef|].
    + destruct IH as (before & after & -> & Hn & Hbefore).
      exists (tool :: before), after. split_and!; [done..|].
      intros t [->|Hin]%elem_of_cons; [done | by apply Hbefore].
    + intros t [->|Hin]%elem_of_cons; [done | by apply IH].
Qed.

(** X12: a tool use whose name is neither in the MCP tool map nor in the
    tool box is answered with the error result [tool not found] that
    carries the id and the name; nothing but the summary line for
    [onDelta] is produced. *)
Theorem unregistered_tool_is_reported a id name input :
  ToolMap a !! name = None →
  (∀ tool, tool ∈ ToolBox a → Name tool ≠ name) →
  executeTool env id name input a
  = Done (ToolResultBlock id name "tool not found" true,
          emit a [EvDelta (FormatToolResultMessage env name input true)]).
Proof.
  intros Hmap Hbox. apply executeTool_not_found; [done|]. by apply findTool_None.
Qed.

(** X13: a registered tool that neither delegates nor targets the plan is
    called once, with the raw input and an empty plan. Its error becomes
    the content of an error result, its response the content of a success
    result; either way [Run] gets a tool result, not an error. *)
Theorem ordinary_tool_outcome_is_reported a id name input toolDef :
  ToolMap a !! name = None →
  findTool (ToolBox a) name = Some toolDef →
  IsSubTool toolDef = false →
  Name toolDef ≠ ToolNamePlanWrite → Name toolDef ≠ ToolNamePlanRead →
  let out := Function toolDef (mkToolInput input emptyPlan) (world a) in
  let result := match failure out with
                | Some e => ToolResultBlock id name e true
                | None => ToolResultBlock id name (response out) false
                end in
  executeTool env id name input a
  = Done (result,
          emit (set_world (emit a [EvToolFunction (Name toolDef)]) (worldAfter out))
            [EvDelta (FormatToolResultMessage env name input
                        (bool_decide (failure out ≠ None)))]).
Proof.
  intros Hmap Hfind Hsub Hw Hr out result.
  unfold executeTool, bind, get, ret, log. cbn. rewrite Hmap.
  rewrite (executeLocalTool_function env a id name input toolDef) by done.
  fold out. subst result. by destruct (failure out).
Qed.

(** X14: a name in the MCP tool map goes to its server even when the tool
    box has a tool of that name: the server is called once with the decoded
    arguments, no tool function runs and the store is not touched. *)
Theorem mcp_tool_shadows_local_tool a id name input server :
  ToolMap a !! name = Some server →
  ∃ result isError,
    executeTool env id name input a
    = Done (result,
            emit (set_world (emit a [EvServerCall name])
                    (ServerCall env server name (decodeArgs env input) (world a)).1)
              [EvDelta (FormatToolResultMessage env name input isError)])
    ∧ executeMCPTool env id name input server a
      = Done (result,
              set_world (emit a [EvServerCall name])
                (ServerCall env server name (decodeArgs env input) (world a)).1).
Proof.
  intros Hmap. unfold executeTool, executeMCPTool, bind, get, ret, log, call. cbn.
  rewrite Hmap. cbn.
  destruct (ServerCall env server name (decodeArgs env input) (world a))
    as [w [[content|] [err|]]]; cbn; try (by eexists _, _).
  case_bool_decide; by eexists _, _.
Qed.

(** X15: a dispatch to an MCP server always returns a tool result for the
    tool use, with a content that is never empty; the result is an error
    result exactly when the server call returned an error, and its content
    then starts with [MCP tool <name> execution error: ]. *)
Theorem mcp_result_is_never_empty a id name input server :
  ∃ content isError a',
    executeMCPTool env id name input server a
    = Done (ToolResultBlock id name content isError, a')
    ∧ content ≠ EmptyString
    ∧ match (ServerCall env server name (decodeArgs env input) (world a)).2.2 with
      | Some err =>
          isError = true
          ∧ content = "MCP tool " +:+ name +:+ " execution error: " +:+ err
      | None => isError = false
      end.
Proof.
  unfold executeMCPTool, bind, ret, log, call. cbn.
  destruct (ServerCall env server name (decodeArgs env input) (world a))
    as [w [[content|] [err|]]]; cbn.
  - eexists _, _, _. by split_and!.
  - case_bool_decide; eexists _, _, _; by split_and!.
  - eexists _, _, _. by split_and!.
  - eexists _, _, _. by split_and!.
Qed.

(** X16: whenever the dispatch of one tool use returns, what it returns is
    a tool result with the id and the name of that tool use, and neither
    the conversation nor the provider client has been touched. *)
Theorem tool_dispatch_answers_its_tool_use a id name input result a' :
  executeTool env id name input a = Done (result, a') →
  (∃ content isError, result = ToolResultBlock id name content isError)
  ∧ Conv a' = Conv a ∧ LLM a' = LLM a ∧ ToolBox a' = ToolBox a.
Proof.
  intros Hrun. split; [by eapply executeTool_answers|].
  destruct (keeps_executeTool env id name input a result a' Hrun) as [-> ->].
  split_and!; [done..|].
  revert Hrun. unfold executeTool, executeMCPTool, executeLocalTool, executePlanTool,
    runSubagent, bind, get, ret, log, call, lift. cbn.
  intros Hrun. repeat (case_match; simplify_eq/=); done.
Qed.

(** X17: the dispatch loop over a message, when it completes, returns one
    tool result per tool use of the message, in the order of the tool uses
    and each with the id of its tool use; blocks that are not tool uses
    give nothing. *)
Theorem dispatch_one_result_per_tool_use blocks a results a' :
  dispatch env blocks a = Done (results, a') →
  answered_id <$> results = Some <$> tool_use_ids blocks
  ∧ length results = length (tool_use_ids blocks)
  ∧ Conv a' = Conv a.
Proof.
  intros Hrun. pose proof (dispatch_answers env _ _ _ _ Hrun) as Hans.
  split_and!; [done | | by apply (keeps_dispatch env) in Hrun as [? _]].
  apply (f_equal length) in Hans. by rewrite !length_fmap in Hans.
Qed.

(** X18: when the plan cannot be resolved, the plan tool is not run and
    nothing is saved: a [GetPlan] error that does not say "not found", a
    failed [CreatePlan], or a nil plan without error each end
    [executePlanTool] with an error before the tool function is called, and
    the plan the orchestrator holds stays as it was. *)
Theorem unresolved_plan_stops_the_tool a toolDef toolInput
    (w1 : W) (found : option Plan * option error) :
  GetPlan env (ConvID (Conv a)) (world a) = (w1, found) →
  (found = (None, None)
   ∨ (∃ p e, found = (p, Some e) ∧ Contains (ToLower e) "not found" = false)
   ∨ (∃ p e w2 created,
        found = (p, Some e) ∧ Contains (ToLower e) "not found" = true
        ∧ CreatePlan env (ConvID (Conv a)) w1 = (w2, created)
        ∧ (created = (None, None) ∨ ∃ p' e', created = (p', Some e')))) →
  ∃ e a',
    executePlanTool env toolDef toolInput a = Done ((EmptyString, Some e), a')
    ∧ AgentPlan a' = AgentPlan a
    ∧ ∀ ev, ev ∈ events a' → ev ∈ events a
                              ∨ ev = EvGetPlan (ConvID (Conv a))
                              ∨ ev = EvCreatePlan (ConvID (Conv a)).
Proof.
  intros Hget Hcase. unfold executePlanTool, bind, get, ret, log, call. cbn.
  rewrite Hget.
  destruct Hcase as [-> | [(p & e & -> & Hnf) | (p & e & w2 & created & -> & Hnf & Hcreate & Hc)]];
    cbn.
  - eexists _, _. split_and!; [done..|]. cbn.
    intros ev [?|?%list_elem_of_singleton]%elem_of_app; tauto.
  - rewrite Hnf. cbn. eexists _, _. split_and!; [done..|]. cbn.
    intros ev [?|?%list_elem_of_singleton]%elem_of_app; tauto.
  - rewrite Hnf. cbn. rewrite Hcreate. cbn.
    destruct Hc as [-> | (p' & e' & ->)]; cbn.
    + eexists _, _. split_and!; [done..|]. cbn.
      intros ev [[?|?%list_elem_of_singleton]%elem_of_app|?%list_elem_of_singleton]%elem_of_app;
        tauto.
    + eexists _, _. split_and!; [done..|]. cbn.
      intros ev [[?|?%list_elem_of_singleton]%elem_of_app|?%list_elem_of_singleton]%elem_of_app;
        tauto.
Qed.

(** X19: a delegation that succeeds is answered with one success result
    whose content is the texts and tool-result contents of the subagent's
    final message, after truncation at 25000, joined in order; tool uses in
    that message contribute nothing. *)
Theorem delegation_folds_the_answer a id name input toolDef query w m m' :
  findTool (ToolBox a) name = Some toolDef →
  IsSubTool toolDef = true →
  decodeQuery env input = inl query →
  SubRun env (Description toolDef) query (world a) = (w, (Some m, None)) →
  SubTruncateMessage env (Some m) 25000 = Done m' →
  executeLocalTool env id name input a
  = Done (ToolResultBlock id name (foldContent (Content m')) false,
          set_world (emit a [EvSubagent query]) w).
Proof.
  intros Hfind Hsub Hdec Hrun Htrunc.
  unfold executeLocalTool, runSubagent, bind, get, ret, log, call, lift. cbn.
  rewrite Hfind, Hsub, Hdec. cbn. rewrite Hrun. cbn. by rewrite Htrunc.
Qed.

End DispatchProperties.
(** ** A turn, pass by pass *)

Section TurnProperties.
Context {W S Schema Server Args : Type}.
Variable client : @LLMClient W S Schema.
Variable env : @Env W Server Args.
Implicit Types (a : @Agent W S Schema Server).

Local Arguments saveConversation : simpl never.

(** X20: when the provider call fails in the first pass of a turn, [Run]
    returns that error; the user's message has already been appended to
    the conversation in memory and stays there, and nothing has been saved
    or run: the store is as it was. *)
Theorem failed_inference_keeps_user_message fuel userInput a s s2 deltas msg e :
  ToNativeMessage client (Some (mkMessage UserRole [NewTextBlock userInput] 0 0)) (LLM a)
    = (s, None) →
  RunInference client (streaming a) s = (s2, deltas, (msg, Some e)) →
  ∃ a',
    Run_loop client env (Datatypes.S fuel) userInput true a = Returned (Some e) a'
    ∧ Messages (Conv a')
      = Messages (Conv a)
        ++ [stamped (mkMessage UserRole [NewTextBlock userInput] 0 0)
              (timeNow env (world a)) (length (Messages (Conv a)))]
    ∧ world a' = world a
    ∧ TokenCount a' = TokenCount a.
Proof.
  intros Htr Hinf. cbn [Run_loop].
  unfold Run_pass, streamResponse, bind, get, llm, ret, log, appendToConv. cbn.
  rewrite Htr. cbn. rewrite Hinf. cbn. eexists. by split_and!.
Qed.

(** The pass on an answer without tool uses, up to the token count. *)
Lemma Run_pass_final userInput a s deltas m s' w saveErr :
  RunInference client (streaming a) (LLM a) = (s, deltas, (Some m, None)) →
  ToNativeMessage client (Some m) s = (s', None) →
  tool_use_ids (Content m) = [] →
  SaveConversation env (Conv (after_model_message env a s deltas m s')) (world a)
    = (w, saveErr) →
  Run_pass client env userInput false a =
  let a3 := set_world (emit (after_model_message env a s deltas m s')
                         [EvSaveConversation (Conv (after_model_message env a s deltas m s'))])
              w in
  let '(s3, (count, err)) := CountTokens client s' in
  match err with
  | Some e => Done (Return e, set_LLM a3 s3)
  | None =>
      Done (Break,
            emit (set_TokenCount (set_LLM a3 s3) count) [EvPublish (mkUIState None count)])
  end.
Proof.
  intros Hinf Htr Hnone Hsave.
  rewrite (Run_pass_dispatch client env userInput a s deltas m s' Hinf Htr).
  rewrite dispatch_no_tool_use by done. cbn [length]. rewrite bool_decide_eq_true_2 by done.
  unfold saveConversation, bind, get, ret, log, call.
  cbn [after_model_message set_Conv Conv Messages with_Messages].
  rewrite bool_decide_eq_true_2 by (rewrite length_app; cbn; lia).
  cbn. cbn in Hsave. rewrite Hsave. cbn. reflexivity.
Qed.

(** X21: the pass that ends a turn saves the conversation once, with the
    model's answer appended, and ignores what [SaveConversation] returns:
    also when the store reports an error, [Run] returns nil, sets the token
    count and publishes it. *)
Theorem turn_end_ignores_save_failure fuel userInput a s deltas m s' w saveErr s3 count :
  RunInference client (streaming a) (LLM a) = (s, deltas, (Some m, None)) →
  ToNativeMessage client (Some m) s = (s', None) →
  tool_use_ids (Content m) = [] →
  SaveConversation env (Conv (after_model_message env a s deltas m s')) (world a)
    = (w, saveErr) →
  CountTokens client s' = (s3, (count, None)) →
  ∃ a',
    Run_loop client env (Datatypes.S fuel) userInput false a = Returned None a'
    ∧ TokenCount a' = count
    ∧ world a' = w
    ∧ Messages (Conv a')
      = Messages (Conv a)
        ++ [stamped m (timeNow env (world a)) (length (Messages (Conv a)))]
    ∧ events a'
      = events a ++ [EvRunInference] ++ (EvDelta <$> deltas)
        ++ [EvSaveConversation (Conv a'); EvPublish (mkUIState None count)].
Proof.
  intros Hinf Htr Hnone Hsave Hcount. cbn [Run_loop].
  rewrite (Run_pass_final userInput a s deltas m s' w saveErr) by done.
  cbn zeta. rewrite Hcount. eexists. split_and!; [reflexivity..|].
  cbn. by rewrite <- !app_assoc.
Qed.

(** X22: when the token count fails at the end of a turn, [Run] returns
    that error although the conversation has just been saved with the
    model's answer; the token count of the orchestrator keeps its old value
    and nothing is published. *)
Theorem failed_token_count_fails_a_saved_turn
    fuel userInput a s deltas m s' w saveErr s3 count e :
  RunInference client (streaming a) (LLM a) = (s, deltas, (Some m, None)) →
  ToNativeMessage client (Some m) s = (s', None) →
  tool_use_ids (Content m) = [] →
  SaveConversation env (Conv (after_model_message env a s deltas m s')) (world a)
    = (w, saveErr) →
  CountTokens client s' = (s3, (count, Some e)) →
  ∃ a',
    Run_loop client env (Datatypes.S fuel) userInput false a = Returned (Some e) a'
    ∧ TokenCount a' = TokenCount a
    ∧ world a' = w
    ∧ events a'
      = events a ++ [EvRunInference] ++ (EvDelta <$> deltas)
        ++ [EvSaveConversation (Conv a')].
Proof.
  intros Hinf Htr Hnone Hsave Hcount. cbn [Run_loop].
  rewrite (Run_pass_final userInput a s deltas m s' w saveErr) by done.
  cbn zeta. rewrite Hcount. eexists. split_and!; [reflexivity..|].
  cbn. by rewrite <- !app_assoc.
Qed.

(** X23: a pass on an answer with tool uses does not end the turn and
    saves nothing. Once every tool use is dispatched and the bundle of
    results translated, the loop goes round without reading input again,
    on a conversation that has gained the model's message and one user
    message with one result per tool use, in order and with matching
    ids. *)
Theorem tool_results_are_fed_back fuel userInput a s deltas m s' toolResults a2 s3 :
  RunInference client (streaming a) (LLM a) = (s, deltas, (Some m, None)) →
  ToNativeMessage client (Some m) s = (s', None) →
  tool_use_ids (Content m) ≠ [] →
  dispatch env (Content m) (after_model_message env a s deltas m s')
    = Done (toolResults, a2) →
  ToNativeMessage client (Some (mkMessage UserRole toolResults 0 0)) s' = (s3, None) →
  ∃ a',
    Run_loop client env (Datatypes.S fuel) userInput false a
    = Run_loop client env fuel userInput false a'
    ∧ answered_id <$> toolResults = Some <$> tool_use_ids (Content m)
    ∧ Messages (Conv a')
      = Messages (Conv a)
        ++ [stamped m (timeNow env (world a)) (length (Messages (Conv a)));
            stamped (mkMessage UserRole toolResults 0 0) (timeNow env (world a2))
              (Datatypes.S (length (Messages (Conv a))))]
    ∧ world a' = world a2
    ∧ events a' = events a2.
Proof.
  intros Hinf Htr Hsome Hd Hres. cbn [Run_loop].
  rewrite (Run_pass_dispatch client env userInput a s deltas m s' Hinf Htr), Hd.
  pose proof (dispatch_answers _ _ _ _ _ Hd) as Hans.
  apply keeps_dispatch in Hd as [Hc2 Hl2].
  rewrite bool_decide_eq_false_2.
  2:{ intros Hlen. apply nil_length_inv in Hlen. subst toolResults.
      cbn in Hans. symmetry in Hans. by apply fmap_nil_inv in Hans. }
  rewrite Hl2. cbn [after_model_message set_Conv LLM set_LLM]. rewrite Hres.
  eexists. split_and!; [reflexivity | done | | done..].
  cbn. rewrite Hc2. cbn. rewrite <- app_assoc. cbn.
  do 3 f_equal. unfold stamped. f_equal. rewrite length_app. cbn. lia.
Qed.

End TurnProperties.

(** ** What each provider makes of a turn *)

Section AnthropicTurns.
Context {W Schema Net Server Args NativeSchema : Type}.
Variable toInputSchemaParam : Schema → NativeSchema.
Variable messagesNew :
  bool → list AnthropicMessageParam → list (@AnthropicToolParam NativeSchema) →
  Net → Net * list string * (option Message * option error).
Variable messagesCountTokens :
  list AnthropicMessageParam → Net → Net * (Z * option error).
Variable env : @Env W Server Args.

Local Abbreviation anthropic :=
  (AnthropicLLM (W := W) toInputSchemaParam messagesNew messagesCountTokens).

(** X24: with the Anthropic client the user's input is never refused, the
    empty input included: the first pass of a turn always appends the
    user's message to the conversation and its one-block translation to the
    native history, and then goes on to the provider call. *)
Theorem anthropic_turn_accepts_any_input userInput
    (a : @Agent W (@AnthropicClient NativeSchema * Net) Schema Server) :
  Run_pass anthropic env userInput true a
  = Run_pass anthropic env userInput false
      (set_Conv
         (set_LLM a
            (mkAnthropicClient
               (anthropic_history (LLM a).1
                ++ [mkAnthropicMessageParam "user" [AnthropicText userInput]])
               (anthropic_tools (LLM a).1),
             (LLM a).2))
         (with_Messages (Conv a)
            (Messages (Conv a)
             ++ [stamped (mkMessage UserRole [NewTextBlock userInput] 0 0)
                   (timeNow env (world a)) (length (Messages (Conv a)))]))).
Proof. by apply Run_pass_user_message. Qed.

End AnthropicTurns.

Section GeminiTurns.
Context {W Schema Net Server Args NativeSchema GeminiArgs : Type}.
Variable ConvertToGeminiSchema : Schema → NativeSchema + error.
Variable unmarshalArgs : RawMessage → GeminiArgs + error.
Variable thoughtSignature : RawMessage → option string.
Variable generateContent :
  bool → list (@GeminiContent GeminiArgs) → list (@GeminiTool NativeSchema) →
  Net → Net * list string * (option Message * option error).
Variable modelsCountTokens :
  list (@GeminiContent GeminiArgs) → Net → Net * (Z * option error).
Variable env : @Env W Server Args.
Implicit Types (a : @Agent W (@GeminiClient NativeSchema GeminiArgs * Net) Schema Server).

Local Abbreviation gemini :=
  (GeminiLLM (W := W) ConvertToGeminiSchema unmarshalArgs thoughtSignature
     generateContent modelsCountTokens).

(** X25: with the Gemini client an empty user input ends the turn at once:
    the first pass of the loop of [Run] returns
    [gemini: message has no content parts] before the provider is called,
    and leaves the orchestrator exactly as it was when the pass started,
    with nothing appended. *)
Theorem gemini_turn_refuses_empty_input fuel a :
  Run_loop gemini env (Datatypes.S fuel) EmptyString true a
  = Returned (Some "gemini: message has no content parts") a.
Proof.
  cbn [Run_loop].
  rewrite (Run_pass_user_message_error gemini env EmptyString a (LLM a)
             "gemini: message has no content parts").
  - by destruct a.
  - cbn. unfold on_client. by destruct (LLM a).
Qed.

(** A bundle of tool results always gives parts. *)
Lemma Gemini_accepts_tool_results (c : @GeminiClient NativeSchema GeminiArgs)
    (toolResults : list ContentBlock) (ids : list string) :
  answered_id <$> toolResults = Some <$> ids → ids ≠ [] →
  (Gemini_ToNativeMessage unmarshalArgs thoughtSignature c
     (Some (mkMessage UserRole toolResults 0 0))).2 = None.
Proof.
  intros Hans Hne. rewrite Gemini_ToNativeMessage_usable; [done|].
  destruct toolResults as [|b rest]; [by destruct ids|].
  destruct ids as [|id ids]; [done|]. cbn in Hans. injection Hans as Hb _.
  apply Exists_cons_hd. by destruct b.
Qed.

(** X26: with the Gemini client a pass on an answer with tool uses never
    returns an error of its own: the dispatch answers every tool use with
    a tool result, a bundle of tool results always gives parts, and so the
    pass, when the dispatch completes, goes round again without reading
    input. *)
Theorem gemini_pass_with_tool_uses_goes_round userInput a s deltas m s' p a' :
  RunInference gemini (streaming a) (LLM a) = (s, deltas, (Some m, None)) →
  ToNativeMessage gemini (Some m) s = (s', None) →
  tool_use_ids (Content m) ≠ [] →
  Run_pass gemini env userInput false a = Done (p, a') →
  p = Continue false.
Proof.
  intros Hinf Htr Hsome.
  rewrite (Run_pass_dispatch gemini env userInput a s deltas m s' Hinf Htr).
  destruct (dispatch env (Content m) _) as [[toolResults a2]|] eqn:Hd; [|done].
  pose proof (dispatch_answers _ _ _ _ _ Hd) as Hans.
  rewrite bool_decide_eq_false_2.
  2:{ intros Hlen. apply nil_length_inv in Hlen. subst toolResults.
      cbn in Hans. symmetry in Hans. by apply fmap_nil_inv in Hans. }
  pose proof (Gemini_accepts_tool_results (LLM a2).1 toolResults _ Hans Hsome) as Hok.
  cbn [ToNativeMessage gemini GeminiLLM]. unfold on_client.
  destruct (Gemini_ToNativeMessage _ _ _ _) as [c3 err]. cbn in Hok. subst err.
  by intros [= <- _].
Qed.

End GeminiTurns.

(** ** The answers of the Gemini provider *)

Lemma append_empty_r (s : string) : s +:+ EmptyString = s.
Proof.
  induction s as [|c s IH]; [done|].
  change (String c (s +:+ EmptyString) = String c s). by f_equal.
Qed.

Lemma append_assoc (a b c : string) : (a +:+ b) +:+ c = a +:+ (b +:+ c).
Proof.
  induction a as [|x a IH]; [done|].
  change (String x ((a +:+ b) +:+ c) = String x (a +:+ (b +:+ c))). by f_equal.
Qed.

Section GeminiAnswerFacts.
Context {Args : Type}.
Variable marshalArgs : Args → RawMessage + error.
Variable marshalThought : string → RawMessage + error.
Implicit Types (parts : list (@AnswerPart Args)) (response : list (@StreamItem Args)).

Lemma toolCall_answers p fc b :
  toolCall marshalArgs marshalThought p fc = inl b → answers_call marshalArgs b fc.
Proof.
  unfold toolCall, answers_call. intros Hcall.
  repeat (case_match; simplify_eq/=); eauto.
Qed.

Lemma answer_text_app parts1 parts2 :
  answer_text (parts1 ++ parts2) = answer_text parts1 +:+ answer_text parts2.
Proof.
  induction parts1 as [|p parts1 IH]; cbn; [done|].
  unfold answer_text in *. cbn. by rewrite IH, append_assoc.
Qed.

(** The loop of the snapshot path gathers the texts and the tool uses
    separately. *)
Lemma snapshot_parts_spec parts fullText blocks :
  match snapshot_parts marshalArgs marshalThought parts fullText blocks with
  | inl (fullText', blocks') =>
      fullText' = fullText +:+ answer_text parts
      ∧ ∃ uses, blocks' = blocks ++ uses
                ∧ Forall2 (answers_call marshalArgs) uses (answer_calls parts)
  | inr err =>
      ∃ p fc, p ∈ parts ∧ partFunctionCall p = Some fc
              ∧ toolCall marshalArgs marshalThought p fc = inr err
  end.
Proof.
  revert fullText blocks. induction parts as [|p parts IH]; intros fullText blocks.
  { cbn [snapshot_parts]. split; [symmetry; apply append_empty_r|].
    exists []. by rewrite app_nil_r. }
  cbn [snapshot_parts].
  assert ((if bool_decide (partText p ≠ EmptyString) then fullText +:+ partText p
           else fullText) = fullText +:+ partText p) as ->.
  { case_bool_decide as Htext; [done|].
    by rewrite Htext, append_empty_r. }
  destruct (partFunctionCall p) as [fc|] eqn:Hfc.
  - destruct (toolCall marshalArgs marshalThought p fc) as [b|err] eqn:Hcall.
    + specialize (IH (fullText +:+ partText p) (blocks ++ [b])).
      destruct (snapshot_parts _ _ parts _ _) as [[fullText' blocks']|err].
      * destruct IH as (-> & uses & -> & Huses). split.
        { unfold answer_text. cbn. by rewrite append_assoc. }
        exists (b :: uses). split; [by rewrite <- app_assoc|].
        unfold answer_calls. cbn. rewrite Hfc. cbn. constructor; [|done].
        by eapply toolCall_answers.
      * destruct IH as (p' & fc' & Hin & Hfc' & Herr).
        exists p', fc'. split_and!; [by right | done..].
    + exists p, fc. split_and!; [by left | done..].
  - specialize (IH (fullText +:+ partText p) blocks).
    destruct (snapshot_parts _ _ parts _ _) as [[fullText' blocks']|err].
    + destruct IH as (-> & uses & -> & Huses). split.
      { unfold answer_text. cbn. by rewrite append_assoc. }
      exists uses. split; [done|]. unfold answer_calls. cbn. by rewrite Hfc.
    + destruct IH as (p' & fc' & Hin & Hfc' & Herr).
      exists p', fc'. split_and!; [by right | done..].
Qed.

Lemma snapshot_parts_app parts1 parts2 fullText blocks :
  snapshot_parts marshalArgs marshalThought (parts1 ++ parts2) fullText blocks
  = match snapshot_parts marshalArgs marshalThought parts1 fullText blocks with
    | inl (fullText', blocks') =>
        snapshot_parts marshalArgs marshalThought parts2 fullText' blocks'
    | inr err => inr err
    end.
Proof.
  revert fullText blocks. induction parts1 as [|p parts1 IH]; intros fullText blocks; [done|].
  cbn [app snapshot_parts]. destruct (partFunctionCall p) as [fc|]; [|apply IH].
  destruct (toolCall marshalArgs marshalThought p fc); [apply IH | done].
Qed.

(** On the parts of one chunk the streaming loop gathers what the
    snapshot loop gathers, and calls [onDelta] once for every part. *)
Lemma stream_parts_spec parts fullText blocks deltas deltas' fullText' blocks' :
  stream_parts marshalArgs marshalThought parts fullText blocks deltas
    = (deltas', inl (fullText', blocks')) →
  snapshot_parts marshalArgs marshalThought parts fullText blocks
    = inl (fullText', blocks')
  ∧ deltas' = deltas ++ (answer_delta <$> parts).
Proof.
  revert fullText blocks deltas.
  induction parts as [|p parts IH]; intros fullText blocks deltas.
  { cbn. intros [= <- <- <-]. by rewrite app_nil_r. }
  cbn [stream_parts snapshot_parts fmap list_fmap]. unfold answer_delta at 1.
  case_bool_decide as Htext.
  - destruct (partFunctionCall p) as [fc|].
    + destruct (toolCall marshalArgs marshalThought p fc) as [b|err]; [|done].
      intros [-> ->]%IH. by rewrite <- app_assoc.
    + intros [-> ->]%IH. by rewrite <- app_assoc.
  - destruct (partFunctionCall p) as [fc|].
    + destruct (toolCall marshalArgs marshalThought p fc) as [b|err]; [|done].
      intros [-> ->]%IH. by rewrite <- app_assoc.
    + intros [-> ->]%IH. by rewrite <- app_assoc.
Qed.

Lemma stream_chunks_spec response fullText blocks deltas deltas' fullText' blocks' :
  stream_chunks marshalArgs marshalThought response fullText blocks deltas
    = (deltas', inl (fullText', blocks')) →
  snapshot_parts marshalArgs marshalThought (stream_read response) fullText blocks
    = inl (fullText', blocks')
  ∧ deltas' = deltas ++ (answer_delta <$> stream_read response).
Proof.
  revert fullText blocks deltas.
  induction response as [|item response IH]; intros fullText blocks deltas.
  { cbn. intros [= <- <- <-]. by rewrite app_nil_r. }
  destruct item as [chunk| |err]; cbn [stream_chunks stream_read].
  - unfold chunk_parts. destruct (Candidates chunk) as [|best candidates]; [done|].
    destruct (candidateContent best) as [parts|]; [|done].
    change (default [] (Some parts)) with parts.
    destruct (bool_decide (length parts = 0%nat)
              && bool_decide (FinishReason best ≠ EmptyString)) eqn:Hskip.
    + apply andb_prop in Hskip as [Hlen%bool_decide_eq_true _].
      apply nil_length_inv in Hlen as ->. apply IH.
    + destruct (stream_parts _ _ parts _ _ _) as [deltas1 [[fullText1 blocks1]|err]] eqn:Hparts;
        [|done].
      apply stream_parts_spec in Hparts as [Hsnap ->].
      intros [Hrest ->]%IH. rewrite snapshot_parts_app, Hsnap.
      split; [done|]. by rewrite fmap_app, app_assoc.
  - intros [= <- <- <-]. by rewrite app_nil_r.
  - done.
Qed.

(** X27: the message [runInferenceSnapshot] makes of an answer has the
    role [model] and holds, first, one text block with the texts of all
    parts joined (no block when there is no text) and then one tool use per
    function call, in the order of the calls and with their ids and names:
    text that the provider put after a function call comes before it in
    the message. *)
Theorem snapshot_answer_blocks (chunk : @GenerateContentResponse Args) (m : Message) :
  runInferenceSnapshot marshalArgs marshalThought (inl chunk) = (Some m, None) →
  ∃ uses,
    Role m = ModelRole
    ∧ Content m = text_blocks (answer_text (chunk_parts chunk)) ++ uses
    ∧ Forall2 (answers_call marshalArgs) uses (answer_calls (chunk_parts chunk)).
Proof.
  unfold runInferenceSnapshot, chunk_parts.
  destruct (Candidates chunk) as [|best candidates]; [done|].
  destruct (candidateContent best) as [parts|]; [|done].
    change (default [] (Some parts)) with parts.
  pose proof (snapshot_parts_spec parts EmptyString []) as Hspec.
  destruct (snapshot_parts _ _ parts _ _) as [[fullText blocks]|err]; [|done].
  destruct Hspec as (-> & uses & -> & Huses). intros [= <-].
  exists uses. by split_and!.
Qed.

(** X28: the message [runInferenceStream] makes of a stream that ends
    without error is never empty and holds the tool uses first, one per
    function call of the chunks in order, and the one text block last;
    [onDelta] has been called once for every part, with its text or with a
    line feed when it has none. *)
Theorem stream_answer_blocks response (deltas : list string) (m : Message) :
  runInferenceStream marshalArgs marshalThought response = (deltas, (Some m, None)) →
  ∃ uses,
    Role m = ModelRole
    ∧ Content m ≠ []
    ∧ Content m = uses ++ text_blocks (answer_text (stream_read response))
    ∧ Forall2 (answers_call marshalArgs) uses (answer_calls (stream_read response))
    ∧ deltas = answer_delta <$> stream_read response.
Proof.
  unfold runInferenceStream.
  destruct (stream_chunks _ _ response _ _ _) as [deltas1 [[fullText blocks]|err]] eqn:Hchunks;
    [|done].
  apply stream_chunks_spec in Hchunks as [Hsnap ->].
  pose proof (snapshot_parts_spec (stream_read response) EmptyString []) as Hspec.
  rewrite Hsnap in Hspec. destruct Hspec as (-> & uses & -> & Huses).
  change (EmptyString +:+ answer_text (stream_read response))
    with (answer_text (stream_read response)).
  change ([] ++ uses) with uses. unfold text_blocks.
  destruct (answer_text (stream_read response)) as [|ch text].
  - rewrite (bool_decide_eq_false_2 (0 < len EmptyString)) by done.
    rewrite (bool_decide_eq_false_2 (EmptyString ≠ EmptyString)) by (by intros Hne; apply Hne).
    case_bool_decide as Hlen; [done|]. intros [= <- <-].
    exists uses. rewrite app_nil_r. split_and!; [done | | done..].
    cbn. by intros ->.
  - rewrite (bool_decide_eq_true_2 (0 < len (String ch text))) by (unfold len; cbn; lia).
    rewrite (bool_decide_eq_true_2 (String ch text ≠ EmptyString)) by done.
    rewrite bool_decide_eq_false_2 by (rewrite length_app; cbn; lia).
    intros [= <- <-]. exists uses. split_and!; [done | | done..].
    cbn. by destruct uses.
Qed.

Section EmptyAnswer.
Context {NativeSchema : Type}.
Variable unmarshalArgs : RawMessage → Args + error.
Variable thoughtSignature : RawMessage → option string.

Lemma answer_without_content parts :
  Forall (λ p, partText p = EmptyString ∧ partFunctionCall p = None) parts →
  ∀ deltas,
    stream_parts marshalArgs marshalThought parts EmptyString [] deltas
    = (deltas ++ ((λ _, String "010"%char EmptyString) <$> parts), inl (EmptyString, [])).
Proof.
  induction 1 as [|p parts [Htext Hcall] _ IH]; intros deltas; cbn [stream_parts].
  { by rewrite app_nil_r. }
  rewrite Htext, Hcall. rewrite bool_decide_eq_false_2 by (by intros []).
  rewrite IH. cbn. by rewrite <- app_assoc.
Qed.

(** X29: an answer whose parts hold neither text nor a function call is
    handled differently by the two modes. The snapshot path returns a
    message without blocks and no error, which [ToNativeMessage] then
    refuses with [gemini: message has no content parts], leaving the client
    as it is; the streaming path itself returns
    [gemini: model returned no usable content], after one line feed to
    [onDelta] per part. *)
Theorem empty_answer_by_mode (c : @GeminiClient NativeSchema Args)
    (best : Candidate) (candidates : list Candidate) parts :
  candidateContent best = Some parts →
  Forall (λ p, partText p = EmptyString ∧ partFunctionCall p = None) parts →
  runInferenceSnapshot marshalArgs marshalThought
    (inl (mkGenerateContentResponse (best :: candidates)))
  = (Some (mkMessage ModelRole [] 0 0), None)
  ∧ Gemini_ToNativeMessage unmarshalArgs thoughtSignature c
      (Some (mkMessage ModelRole [] 0 0))
    = (c, Some "gemini: message has no content parts")
  ∧ runInferenceStream marshalArgs marshalThought
      [Chunk (mkGenerateContentResponse (best :: candidates))]
    = ((λ _, String "010"%char EmptyString) <$> parts,
       (None, Some "gemini: model returned no usable content")).
Proof.
  intros Hcontent Hempty. split_and!.
  - unfold runInferenceSnapshot. cbn. rewrite Hcontent.
    pose proof (answer_without_content parts Hempty []) as Hstream.
    apply stream_parts_spec in Hstream as [-> _]. done.
  - done.
  - unfold runInferenceStream. cbn. rewrite Hcontent.
    destruct (bool_decide (length parts = 0%nat)
              && bool_decide (FinishReason best ≠ EmptyString)) eqn:Hskip.
    + apply andb_prop in Hskip as [Hlen%bool_decide_eq_true _].
      by apply nil_length_inv in Hlen as ->.
    + by rewrite (answer_without_content parts Hempty []).
Qed.

End EmptyAnswer.
End GeminiAnswerFacts.

(** ** The ids in request paths *)

Lemma prefix_append (pre rest : string) : String.prefix pre (pre +:+ rest) = true.
Proof.
  induction pre as [|c pre IH]; [by destruct rest|].
  change (String.prefix (String c pre) (String c (pre +:+ rest)) = true).
  cbn. by destruct (ascii_dec c c).
Qed.

Lemma prefix_inv (pre s : string) :
  String.prefix pre s = true → s = pre +:+ suffix_from (String.length pre) s.
Proof.
  revert s. induction pre as [|c pre IH]; intros s; [done|].
  destruct s as [|c' s]; [done|]. cbn. destruct (ascii_dec c c') as [<-|]; [|done].
  intros Hpre%IH. change (String c s = String c (pre +:+ suffix_from (String.length pre) s)).
  by f_equal.
Qed.

Lemma suffix_from_length (a b : string) : suffix_from (String.length a) (a +:+ b) = b.
Proof.
  pose proof (suffix_from_append a b 0) as Hs.
  rewrite Nat.add_0_r in Hs. rewrite Hs. by destruct b.
Qed.

Lemma prefix_suffix_bytes n (s : string) : prefix_bytes n s +:+ suffix_from n s = s.
Proof.
  revert s. induction n as [|n IH]; intros [|c s]; try done.
  change (String c (prefix_bytes n s +:+ suffix_from n s) = String c s). by f_equal.
Qed.

Lemma TrimPrefix_append (pre rest : string) : TrimPrefix (pre +:+ rest) pre = rest.
Proof.
  unfold TrimPrefix, HasPrefix. by rewrite prefix_append, suffix_from_length.
Qed.

Lemma HasSuffix_append (s suffix : string) : HasSuffix (s +:+ suffix) suffix = true.
Proof.
  unfold HasSuffix. rewrite length_append.
  replace (String.length s + String.length suffix - String.length suffix)%nat
    with (String.length s) by lia.
  rewrite suffix_from_length.
  rewrite !bool_decide_eq_true_2; [done.. | lia].
Qed.

Lemma HasSuffix_inv (s suffix : string) :
  HasSuffix s suffix = true →
  s = prefix_bytes (String.length s - String.length suffix) s +:+ suffix.
Proof.
  unfold HasSuffix. intros [_ Hsuf%bool_decide_eq_true]%andb_prop.
  pose proof (prefix_suffix_bytes (String.length s - String.length suffix) s) as Hsplit.
  by rewrite Hsuf in Hsplit.
Qed.

Lemma HasSuffix_app (a s suffix : string) :
  (String.length suffix ≤ String.length s)%nat →
  HasSuffix (a +:+ s) suffix = HasSuffix s suffix.
Proof.
  intros Hlen. unfold HasSuffix. rewrite length_append.
  replace (String.length a + String.length s - String.length suffix)%nat
    with (String.length a + (String.length s - String.length suffix))%nat by lia.
  rewrite suffix_from_append.
  rewrite !(bool_decide_eq_true_2 (_ ≤ _)%nat) by lia. done.
Qed.

Lemma TrimSuffix_append (s suffix : string) : TrimSuffix (s +:+ suffix) suffix = s.
Proof.
  unfold TrimSuffix. rewrite HasSuffix_append, length_append.
  replace (String.length s + String.length suffix - String.length suffix)%nat
    with (String.length s) by lia.
  apply prefix_bytes_append.
Qed.

Lemma Contains_append (a sub b : string) : Contains (a +:+ sub +:+ b) sub = true.
Proof.
  induction a as [|c a IH].
  - change (Contains (sub +:+ b) sub = true).
    destruct (sub +:+ b) eqn:Heq; cbn [Contains]; rewrite <- Heq, prefix_append; done.
  - change (Contains (String c (a +:+ sub +:+ b)) sub = true).
    cbn [Contains]. rewrite IH. apply orb_true_r.
Qed.

(** What both parsers do, with the collection's path as [root]. *)
Lemma parse_id_under (root path id : string) :
  (let path := TrimSuffix path "/" in
   if bool_decide (path = root) then (EmptyString, false)
   else if negb (HasPrefix path (root +:+ "/")) then (EmptyString, false)
   else
     let id := TrimPrefix path (root +:+ "/") in
     if Contains id "/" then (EmptyString, false) else (id, true))
  = (id, true)
  ↔ Contains id "/" = false
    ∧ (path = root +:+ "/" +:+ id +:+ "/"
       ∨ id ≠ EmptyString ∧ path = root +:+ "/" +:+ id).
Proof.
  cbv zeta. split.
  - case_bool_decide as Hroot; [done|].
    destruct (HasPrefix (TrimSuffix path "/") (root +:+ "/")) eqn:Hpre; [|done].
    cbn [negb]. destruct (Contains _ "/") eqn:Hno; [done|]. intros [= Hid].
    unfold HasPrefix in Hpre. apply prefix_inv in Hpre.
    unfold TrimPrefix, HasPrefix in Hid, Hno.
    rewrite Hpre, prefix_append, suffix_from_length in Hid, Hno.
    rewrite Hid in Hpre, Hno. clear Hid. rewrite append_assoc in Hpre.
    split; [done|]. unfold TrimSuffix in Hpre.
    destruct (HasSuffix path "/") eqn:Hsuf.
    + left. apply HasSuffix_inv in Hsuf. rewrite Hsuf, Hpre.
      by rewrite !append_assoc.
    + right. split; [|done]. intros ->. rewrite Hpre in Hsuf.
      rewrite <- append_assoc, append_empty_r in Hsuf.
      by rewrite HasSuffix_append in Hsuf.
  - intros (Hno & [-> | [Hid ->]]).
    + rewrite <- !append_assoc, TrimSuffix_append.
      rewrite bool_decide_eq_false_2.
      2:{ intros Heq%(f_equal String.length). rewrite !length_append in Heq. cbn in Heq. lia. }
      unfold HasPrefix. rewrite prefix_append. cbn [negb].
      rewrite TrimPrefix_append. by rewrite Hno.
    + assert (HasSuffix (root +:+ "/" +:+ id) "/" = false) as Hsuf.
      { rewrite <- append_assoc, HasSuffix_app by (destruct id; cbn; [done | lia]).
        destruct (HasSuffix id "/") eqn:Hsuf; [|done].
        apply HasSuffix_inv in Hsuf.
        pose proof (Contains_append
                      (prefix_bytes (String.length id - String.length "/") id)
                      "/" EmptyString) as Hyes.
        rewrite append_empty_r, <- Hsuf in Hyes. by rewrite Hyes in Hno. }
      unfold TrimSuffix. rewrite Hsuf.
      rewrite bool_decide_eq_false_2.
      2:{ intros Heq%(f_equal String.length). rewrite !length_append in Heq. cbn in Heq. lia. }
      unfold HasPrefix. rewrite <- append_assoc, prefix_append. cbn [negb].
      rewrite TrimPrefix_append. by rewrite Hno.
Qed.

(** X30: the two path parsers of the server accept exactly the paths
    [<root>/<id>] with an id that is not empty and holds no slash, and the
    paths [<root>/<id>/] with an id that holds no slash; one trailing slash
    is dropped, so [/conversations//] is accepted with the empty id. The id
    returned is the one in the path; every other path is rejected with the
    empty id. *)
Theorem path_id_parsers (path id : string) :
  (parseConvID path = (id, true)
   ↔ Contains id "/" = false
     ∧ (path = "/conversations/" +:+ id +:+ "/"
        ∨ id ≠ EmptyString ∧ path = "/conversations/" +:+ id))
  ∧ (parsePlanID path = (id, true)
     ↔ Contains id "/" = false
       ∧ (path = "/plans/" +:+ id +:+ "/"
          ∨ id ≠ EmptyString ∧ path = "/plans/" +:+ id))
  ∧ ((parseConvID path).2 = false → (parseConvID path).1 = EmptyString)
  ∧ ((parsePlanID path).2 = false → (parsePlanID path).1 = EmptyString).
Proof.
  split_and!.
  - exact (parse_id_under "/conversations" path id).
  - exact (parse_id_under "/plans" path id).
  - unfold parseConvID. cbv zeta. by repeat case_match.
  - unfold parsePlanID. cbv zeta. by repeat case_match.
Qed.

Example parse_conversation_paths :
  parseConvID "/conversations/abc-123" = ("abc-123", true)
  ∧ parseConvID "/conversations/abc-123/" = ("abc-123", true)
  ∧ parseConvID "/conversations//" = (EmptyString, true)
  ∧ parseConvID "/conversations/" = (EmptyString, false)
  ∧ parseConvID "/conversations/a/b" = (EmptyString, false)
  ∧ parseConvID "/plans/abc" = (EmptyString, false).
Proof. split_and!; vm_compute; reflexivity. Qed.

(** ** The properties above on the test doubles *)

Lemma unregistered_tool_is_reported_witness :
  Fixture.returned
    (executeTool Fixture.env "toolu_9" "web_search" "{}"
       (Fixture.agent [] [] (0, None) Fixture.world0))
  = Done (ToolResultBlock "toolu_9" "web_search" "tool not found" true).
Proof.
  rewrite (unregistered_tool_is_reported Fixture.env
             (Fixture.agent [] [] (0, None) Fixture.world0) "toolu_9" "web_search" "{}").
  - reflexivity.
  - vm_compute. reflexivity.
  - intros tool Hin.
    repeat (apply elem_of_cons in Hin as [->|Hin]; [vm_compute; discriminate|]).
    by apply elem_of_nil in Hin.
Defined.

Lemma ordinary_tool_outcome_is_reported_witness :
  Fixture.returned
    (executeTool Fixture.env "toolu_1" "error_tool" "{}"
       (Fixture.agent [] [] (0, None) Fixture.world0))
  = Done (ToolResultBlock "toolu_1" "error_tool" "tool execution failed" true).
Proof.
  pose proof (ordinary_tool_outcome_is_reported Fixture.env
                (Fixture.agent [] [] (0, None) Fixture.world0)
                "toolu_1" "error_tool" "{}" Fixture.error_tool) as Hrun.
  cbv zeta in Hrun. rewrite Hrun.
  - reflexivity.
  - vm_compute. reflexivity.
  - vm_compute. reflexivity.
  - reflexivity.
  - vm_compute. discriminate.
  - vm_compute. discriminate.
Defined.

Lemma mcp_tool_shadows_local_tool_witness :
  ∃ result isError a',
    executeTool Fixture.env "toolu_1" "test_tool" "{}"
      (Fixture.with_server (Fixture.agent [] [] (0, None) Fixture.world0) "test_tool" "files")
    = Done (result, a')
    ∧ events a'
      = [EvServerCall "test_tool";
         EvDelta (FormatToolResultMessage Fixture.env "test_tool" "{}" isError)].
Proof.
  destruct (mcp_tool_shadows_local_tool Fixture.env
              (Fixture.with_server (Fixture.agent [] [] (0, None) Fixture.world0)
                 "test_tool" "files")
              "toolu_1" "test_tool" "{}" "files")
    as (result & isError & Hrun & _).
  - vm_compute. reflexivity.
  - exists result, isError. eexists. split; [exact Hrun | reflexivity].
Defined.

Lemma tool_dispatch_answers_its_tool_use_witness :
  ∃ content isError,
    Fixture.returned
      (executeTool Fixture.env "toolu_1" "plan_write" (Fixture.json_query "step")
         (Fixture.agent [] [] (0, None) Fixture.world0))
    = Done (ToolResultBlock "toolu_1" "plan_write" content isError).
Proof.
  destruct (executeTool Fixture.env "toolu_1" "plan_write" (Fixture.json_query "step")
              (Fixture.agent [] [] (0, None) Fixture.world0))
    as [[result a']|] eqn:Hrun; [|vm_compute in Hrun; discriminate].
  destruct (tool_dispatch_answers_its_tool_use _ _ _ _ _ _ _ Hrun)
    as [(content & isError & ->) _].
  by exists content, isError.
Defined.

Lemma dispatch_one_result_per_tool_use_witness :
  ∃ results a',
    dispatch Fixture.env
      [ToolUseBlock "toolu_1" "test_tool" "{}" EmptyString; TextBlock "and";
       ToolUseBlock "toolu_2" "error_tool" "{}" EmptyString]
      (Fixture.agent [] [] (0, None) Fixture.world0)
    = Done (results, a')
    ∧ answered_id <$> results = [Some "toolu_1"; Some "toolu_2"].
Proof.
  destruct (dispatch Fixture.env _ (Fixture.agent [] [] (0, None) Fixture.world0))
    as [[results a']|] eqn:Hrun; [|vm_compute in Hrun; discriminate].
  exists results, a'. split; [reflexivity|].
  by destruct (dispatch_one_result_per_tool_use _ _ _ _ _ Hrun) as [-> _].
Defined.

Lemma unresolved_plan_stops_the_tool_witness :
  ∃ e a',
    executePlanTool Fixture.unreachable_store_env Fixture.plan_write
      (mkToolInput (Fixture.json_query "step") emptyPlan)
      (Fixture.agent [] [] (0, None) Fixture.world0)
    = Done ((EmptyString, Some e), a')
    ∧ AgentPlan a' = None.
Proof.
  destruct (unresolved_plan_stops_the_tool Fixture.unreachable_store_env
              (Fixture.agent [] [] (0, None) Fixture.world0) Fixture.plan_write
              (mkToolInput (Fixture.json_query "step") emptyPlan)
              Fixture.world0 (None, Some "connection refused"))
    as (e & a' & Hrun & Hplan & _).
  - reflexivity.
  - right. left. exists None, "connection refused".
    split; [reflexivity | vm_compute; reflexivity].
  - exists e, a'. split; [exact Hrun | exact Hplan].
Defined.

Lemma delegation_folds_the_answer_witness :
  Fixture.returned
    (executeLocalTool Fixture.env "toolu_1" "finder" (Fixture.json_query "parser")
       (Fixture.agent [] [] (0, None)
          (Fixture.mkWorld None []
             [(Some (mkMessage AssistantRole
                       [TextBlock "parser.go"; TextBlock ", lexer.go"] 0 0), None)] 0)))
  = Done (ToolResultBlock "toolu_1" "finder" "parser.go, lexer.go" false).
Proof.
  rewrite (delegation_folds_the_answer Fixture.env _ "toolu_1" "finder"
             (Fixture.json_query "parser") Fixture.finder "parser"
             (Fixture.mkWorld None [] [] 0)
             (mkMessage AssistantRole [TextBlock "parser.go"; TextBlock ", lexer.go"] 0 0)
             (mkMessage AssistantRole [TextBlock "parser.go"; TextBlock ", lexer.go"] 0 0)).
  - vm_compute. reflexivity.
  - vm_compute. reflexivity.
  - reflexivity.
  - vm_compute. reflexivity.
  - vm_compute. reflexivity.
  - vm_compute. reflexivity.
Defined.

Lemma failed_inference_keeps_user_message_witness :
  Fixture.conversation_after
    (Run_loop Fixture.client Fixture.env 1 "hello" true
       (Fixture.agent [] [] (7, None) Fixture.world0))
  = Done (Some "anthropic snapshot call failed: no answer",
          [mkMessage UserRole [TextBlock "hello"] 0 0]).
Proof.
  destruct (failed_inference_keeps_user_message Fixture.client Fixture.env 0 "hello"
              (Fixture.agent [] [] (7, None) Fixture.world0)
              (mkAnthropicClient [mkAnthropicMessageParam "user" [AnthropicText "hello"]] [],
               ([], (7, None)))
              (mkAnthropicClient [mkAnthropicMessageParam "user" [AnthropicText "hello"]] [],
               ([], (7, None)))
              [] None "anthropic snapshot call failed: no answer")
    as (a' & Hrun & Hmessages & _).
  - vm_compute. reflexivity.
  - vm_compute. reflexivity.
  - rewrite Hrun. cbn [Fixture.conversation_after]. rewrite Hmessages.
    vm_compute. reflexivity.
Defined.

Lemma turn_end_ignores_save_failure_witness :
  Fixture.conversation_after
    (Run_loop Fixture.client Fixture.failing_store_env 1 "hello" false
       (set_LLM (Fixture.agent [mkMessage UserRole [TextBlock "hello"] 0 0] [] (7, None)
                   Fixture.world0)
          (mkAnthropicClient [mkAnthropicMessageParam "user" [AnthropicText "hello"]] [],
           ([(Some (Fixture.text_message AssistantRole "hi"), None)], (7, None)))))
  = Done (None,
          [mkMessage UserRole [TextBlock "hello"] 0 0;
           mkMessage AssistantRole [TextBlock "hi"] 0 1]).
Proof.
  edestruct (turn_end_ignores_save_failure Fixture.client Fixture.failing_store_env 0 "hello"
               (set_LLM (Fixture.agent [mkMessage UserRole [TextBlock "hello"] 0 0] []
                           (7, None) Fixture.world0)
                  (mkAnthropicClient
                     [mkAnthropicMessageParam "user" [AnthropicText "hello"]] [],
                   ([(Some (Fixture.text_message AssistantRole "hi"), None)], (7, None)))))
    as (a' & Hrun & _ & _ & Hmessages & _).
  - vm_compute. reflexivity.
  - vm_compute. reflexivity.
  - vm_compute. reflexivity.
  - vm_compute. reflexivity.
  - vm_compute. reflexivity.
  - rewrite Hrun. cbn [Fixture.conversation_after]. rewrite Hmessages.
    vm_compute. reflexivity.
Defined.

Lemma failed_token_count_fails_a_saved_turn_witness :
  ∃ a',
    Run_loop Fixture.client Fixture.env 1 "hello" false
      (set_LLM (Fixture.agent [mkMessage UserRole [TextBlock "hello"] 0 0] []
                  (0, Some "count failed") Fixture.world0)
         (mkAnthropicClient [mkAnthropicMessageParam "user" [AnthropicText "hello"]] [],
          ([(Some (Fixture.text_message AssistantRole "hi"), None)],
           (0, Some "count failed"))))
    = Returned (Some "count failed") a'
    ∧ TokenCount a' = 0
    ∧ length (Fixture.saved (world a')) = 1%nat.
Proof.
  edestruct (failed_token_count_fails_a_saved_turn Fixture.client Fixture.env 0 "hello"
               (set_LLM (Fixture.agent [mkMessage UserRole [TextBlock "hello"] 0 0] []
                           (0, Some "count failed") Fixture.world0)
                  (mkAnthropicClient
                     [mkAnthropicMessageParam "user" [AnthropicText "hello"]] [],
                   ([(Some (Fixture.text_message AssistantRole "hi"), None)],
                    (0, Some "count failed")))))
    as (a' & Hrun & Hcount & Hworld & _).
  - vm_compute. reflexivity.
  - vm_compute. reflexivity.
  - vm_compute. reflexivity.
  - vm_compute. reflexivity.
  - vm_compute. reflexivity.
  - exists a'. split_and!; [exact Hrun | exact Hcount | by rewrite Hworld].
Defined.

Lemma tool_results_are_fed_back_witness :
  Fixture.conversation_after
    (Run_loop Fixture.client Fixture.env 1 "list files" false
       (set_LLM (Fixture.agent [mkMessage UserRole [TextBlock "list files"] 0 0] []
                   (7, None) Fixture.world0)
          (mkAnthropicClient [mkAnthropicMessageParam "user" [AnthropicText "list files"]] [],
           ([(Some (Fixture.tool_use_message
                      [NewToolUseBlock "toolu_1" "test_tool" "{}"]), None)], (7, None)))))
  = Done (None,
          [mkMessage UserRole [TextBlock "list files"] 0 0;
           mkMessage AssistantRole [ToolUseBlock "toolu_1" "test_tool" "{}" EmptyString] 0 1;
           mkMessage UserRole [ToolResultBlock "toolu_1" "test_tool" "test result" false] 0 2]).
Proof.
  edestruct (tool_results_are_fed_back Fixture.client Fixture.env 0 "list files"
               (set_LLM (Fixture.agent [mkMessage UserRole [TextBlock "list files"] 0 0] []
                           (7, None) Fixture.world0)
                  (mkAnthropicClient
                     [mkAnthropicMessageParam "user" [AnthropicText "list files"]] [],
                   ([(Some (Fixture.tool_use_message
                              [NewToolUseBlock "toolu_1" "test_tool" "{}"]), None)],
                    (7, None)))))
    as (a' & Hrun & _ & Hmessages & _).
  - vm_compute. reflexivity.
  - vm_compute. reflexivity.
  - vm_compute. discriminate.
  - vm_compute. reflexivity.
  - vm_compute. reflexivity.
  - rewrite Hrun. cbn [Run_loop Fixture.conversation_after]. rewrite Hmessages.
    vm_compute. reflexivity.
Defined.

Lemma gemini_pass_with_tool_uses_goes_round_witness :
  ∃ a',
    Run_pass Fixture.gemini_client Fixture.env "list files" false
      (set_LLM (Fixture.gemini_agent Fixture.tool_box
                  [mkMessage UserRole [TextBlock "list files"] 0 0] [] (7, None)
                  Fixture.world0)
         (mkGeminiClient [mkGeminiContent "user" [PartFromText "list files"]] [],
          ([(Some (mkMessage ModelRole [NewToolUseBlock "call_1" "test_tool" "{}"] 0 0),
             None)], (7, None))))
    = Done (Continue false, a').
Proof.
  eexists.
  match goal with
  | |- ?run = Done (?p, ?a') =>
      assert (∃ p0, run = Done (p0, a') ∧ p0 = Continue false) as (p0 & Hrun & ->);
        [|exact Hrun]
  end.
  eexists. split; [vm_compute; reflexivity|].
  eapply (gemini_pass_with_tool_uses_goes_round (λ _, inl tt) Fixture.gemini_unmarshal
            (λ _, None) Fixture.generate_content (λ _ net, (net, net.2)) Fixture.env
            "list files"
            (set_LLM (Fixture.gemini_agent Fixture.tool_box
                        [mkMessage UserRole [TextBlock "list files"] 0 0] [] (7, None)
                        Fixture.world0)
               (mkGeminiClient [mkGeminiContent "user" [PartFromText "list files"]] [],
                ([(Some (mkMessage ModelRole [NewToolUseBlock "call_1" "test_tool" "{}"] 0 0),
                   None)], (7, None))))).
  - vm_compute. reflexivity.
  - vm_compute. reflexivity.
  - vm_compute. discriminate.
  - vm_compute. reflexivity.
Defined.

Lemma snapshot_answer_blocks_witness :
  ∃ uses,
    [TextBlock "Let me look."; ToolUseBlock "call_1" "test_tool" "{}" EmptyString]
    = text_blocks "Let me look." ++ uses
    ∧ tool_use_ids uses = ["call_1"].
Proof.
  destruct (snapshot_answer_blocks inl inl Fixture.gemini_answer
              (mkMessage ModelRole
                 [TextBlock "Let me look.";
                  ToolUseBlock "call_1" "test_tool" "{}" EmptyString] 0 0))
    as (uses & _ & Hcontent & _).
  - vm_compute. reflexivity.
  - exists uses. split; [exact Hcontent|].
    apply (app_inv_head [TextBlock "Let me look."]) in Hcontent. by subst uses.
Defined.

Lemma stream_answer_blocks_witness :
  ∃ uses,
    [ToolUseBlock "call_1" "test_tool" "{}" EmptyString; TextBlock "Let me look."]
    = uses ++ text_blocks "Let me look."
    ∧ tool_use_ids uses = ["call_1"].
Proof.
  destruct (stream_answer_blocks inl inl [Chunk Fixture.gemini_answer; EOF]
              ["Let me "; String "010"%char EmptyString; "look."]
              (mkMessage ModelRole
                 [ToolUseBlock "call_1" "test_tool" "{}" EmptyString;
                  TextBlock "Let me look."] 0 0))
    as (uses & _ & _ & Hcontent & _).
  - vm_compute. reflexivity.
  - exists uses. split; [exact Hcontent|].
    apply (app_inv_tail [TextBlock "Let me look."]
             [ToolUseBlock "call_1" "test_tool" "{}" EmptyString]) in Hcontent.
    by subst uses.
Defined.

Lemma empty_answer_by_mode_witness :
  runInferenceStream inl inl [Chunk Fixture.gemini_empty_answer]
  = ([String "010"%char EmptyString],
     (None, Some "gemini: model returned no usable content"))
  ∧ runInferenceSnapshot inl inl (inl Fixture.gemini_empty_answer)
    = (Some (mkMessage ModelRole [] 0 0), None).
Proof.
  destruct (empty_answer_by_mode (NativeSchema := unit) inl inl Fixture.gemini_unmarshal
              (λ _, None) (mkGeminiClient [] [])
              (mkCandidate (Some [mkAnswerPart EmptyString None None]) "STOP") []
              [mkAnswerPart EmptyString None None])
    as (Hsnapshot & _ & Hstream).
  - reflexivity.
  - by repeat constructor.
  - split; [exact Hstream | exact Hsnapshot].
Defined.
